(** * Deliberatorium agent: a shallow embedding of the action pipeline,
      the workspace storage, the live-transcription hook and the worker
      token route, with the properties the specification states about them.

    Conventions of the embedding.
    - A JavaScript [number] is a rational ([Q]): the finite values with exact
      arithmetic.  [Math.max] and [Math.min] return one of their arguments,
      so they are exact on doubles as well; sums and differences are exact
      here and rounded in the program.
    - A JavaScript string is a [string]; one character stands for one code
      unit, [length] and [slice] count code units.
    - Objects are association lists in property order; [Object.entries]
      is the list itself and a property write replaces in place or appends.
    - The clock ([Date.now]), the random source and the toolkit calls are
      arguments of the functions that use them. *)

From Stdlib Require Import ZArith QArith Qminmax Qround String Ascii List Lia Lqa Bool.
From Stdlib Require Import DecimalString.
From stdpp Require Import gmap strings list.

Close Scope Q_scope.
Local Open Scope string_scope.
Local Open Scope Z_scope.

(* ===================================================================== *)
(** * JavaScript values *)
(* ===================================================================== *)

Module Js.

Definition number := Q.

(** The values the program handles.  [VObj] is an object for which the
    source's [isPlainObject] answers true (an object literal, the result
    of [JSON.parse], a null-prototype object); [VOther repr] is every
    other value (function, symbol, bigint, Date, Map, class instance),
    carrying the text [String(value)] gives for it. *)
Unset Elimination Schemes.
Inductive JsValue : Type :=
| VUndefined
| VNull
| VBool (b : bool)
| VNum (n : number)
| VStr (s : string)
| VArr (items : list JsValue)
| VObj (fields : list (string * JsValue))
| VOther (repr : string).
Set Elimination Schemes.

Arguments VNum n%_Q.

Definition JsObject := list (string * JsValue).


Definition is_undefined (v : JsValue) : bool :=
  match v with VUndefined => true | _ => false end.

(** Induction over a value, with the hypothesis for every element of an
    array and every property value of an object. *)
Definition JsValue_ind (P : JsValue -> Prop)
    (Hundefined : P VUndefined) (Hnull : P VNull)
    (Hbool : forall b, P (VBool b)) (Hnum : forall n, P (VNum n))
    (Hstr : forall s, P (VStr s))
    (Harr : forall items, Forall P items -> P (VArr items))
    (Hobj : forall fields, Forall (fun kv => P (snd kv)) fields -> P (VObj fields))
    (Hother : forall repr, P (VOther repr)) : forall v, P v :=
  fix go (v : JsValue) : P v :=
    match v with
    | VUndefined => Hundefined
    | VNull => Hnull
    | VBool b => Hbool b
    | VNum n => Hnum n
    | VStr s => Hstr s
    | VArr items =>
        Harr items
          ((fix all (l : list JsValue) : Forall P l :=
              match l with
              | [] => List.Forall_nil P
              | x :: l' => List.Forall_cons P x l' (go x) (all l')
              end) items)
    | VObj fields =>
        Hobj fields
          ((fix all (l : JsObject) : Forall (fun kv => P (snd kv)) l :=
              match l with
              | [] => List.Forall_nil _
              | kv :: l' => List.Forall_cons _ kv l' (go (snd kv)) (all l')
              end) fields)
    | VOther repr => Hother repr
    end.

(** ToBoolean: undefined, null, false, 0 and the empty string are falsy. *)
Definition truthy (v : JsValue) : bool :=
  match v with
  | VUndefined | VNull => false
  | VBool b => b
  | VNum n => negb (Qeq_bool n 0)
  | VStr s => negb (String.eqb s "")
  | VArr _ | VObj _ | VOther _ => true
  end.

(** Own property read on an object: the first binding of the key. *)
Fixpoint obj_get (key : string) (fields : JsObject) : option JsValue :=
  match fields with
  | [] => None
  | (k, v) :: rest => if String.eqb k key then Some v else obj_get key rest
  end.

(** ['key' in obj] for an own property. *)
Definition obj_has (key : string) (fields : JsObject) : bool :=
  match obj_get key fields with Some _ => true | None => false end.

(** [obj[key] = v]: replaces the value of an existing key, keeping its
    position, or appends a new property. *)
Fixpoint obj_set (key : string) (v : JsValue) (fields : JsObject) : JsObject :=
  match fields with
  | [] => [(key, v)]
  | (k, old) :: rest =>
      if String.eqb k key then (k, v) :: rest
      else (k, old) :: obj_set key v rest
  end.

(** [{ ...a, ...b }]: the properties of [b] written over a copy of [a]. *)
Definition spread (a b : JsObject) : JsObject :=
  fold_left (fun acc kv => obj_set (fst kv) (snd kv) acc) b a.

(** [value?.key]: undefined on undefined and null, and on a primitive or
    an array for the keys the sources read (id, name, title, content,
    canvasKey, folders, files, token, error), which none of their
    prototypes define.  The sources read keys of parsed JSON only, where
    no [VOther] occurs. *)
Definition opt_get (v : JsValue) (key : string) : JsValue :=
  match v with
  | VObj fields => default VUndefined (obj_get key fields)
  | _ => VUndefined
  end.

(** [a ?? b] on an optional value. *)
Definition nullish {A} (a : option A) (b : A) : A := default b a.

(** ** Strings *)

(** The characters [\s] matches and [trim] strips, among code units
    below 256: tab, line feed, vertical tab, form feed, carriage return,
    space and no-break space. *)
Definition is_space (c : ascii) : bool :=
  let n := N_of_ascii c in
  (((9 <=? n) && (n <=? 13)) || (n =? 32) || (n =? 160))%N.

(** [s.replace(/\s+/g, ' ')]: every maximal run of white space becomes
    one space. [in_run] tells that the previous character was white
    space, whose run has already produced its space. *)
Fixpoint collapse_from (in_run : bool) (s : string) : string :=
  match s with
  | EmptyString => EmptyString
  | String c rest =>
      if is_space c
      then if in_run then collapse_from true rest
           else String " "%char (collapse_from true rest)
      else String c (collapse_from false rest)
  end.

Definition replace_spaces (s : string) : string := collapse_from false s.

Fixpoint trimStart (s : string) : string :=
  match s with
  | EmptyString => EmptyString
  | String c rest => if is_space c then trimStart rest else s
  end.

(** Drops the white space at the end: a character is kept when it is
    not white space or when something is kept after it. *)
Fixpoint trimEnd (s : string) : string :=
  match s with
  | EmptyString => EmptyString
  | String c rest =>
      match trimEnd rest with
      | EmptyString => if is_space c then EmptyString else String c EmptyString
      | kept => String c kept
      end
  end.

Definition trim (s : string) : string := trimEnd (trimStart s).

(** [s.slice(0, n)] for [n >= 0]. *)
Fixpoint slice0 (n : nat) (s : string) : string :=
  match n, s with
  | O, _ => EmptyString
  | _, EmptyString => EmptyString
  | S n', String c rest => String c (slice0 n' rest)
  end.

Definition str_length (s : string) : N := N.of_nat (String.length s).

(** [String(n)] for an integer. *)
Definition Z_to_string (z : Z) : string :=
  NilZero.string_of_int (Z.to_int z).

(** ** Arrays *)

(** [arr.slice(-n)]: the last [n] elements. *)
Definition slice_last {A} (n : nat) (l : list A) : list A :=
  skipn (List.length l - n)%nat l.

End Js.

Import Js.

(* ===================================================================== *)
(** * Shape metadata (deliberatorium/shapeMeta) *)
(* ===================================================================== *)

Module ShapeMeta.

Definition isPlainObject (value : JsValue) : bool :=
  match value with VObj _ => true | _ => false end.

Section Entries.

Variable convert : JsValue -> JsValue.

(** The loop over [Object.entries(value)]: an undefined item is skipped,
    any other is converted and written to [result] under its key. *)
Fixpoint copy_entries (entries : JsObject) (result : JsObject) : JsObject :=
  match entries with
  | [] => result
  | (key, item) :: rest =>
      if is_undefined item then copy_entries rest result
      else copy_entries rest (obj_set key (convert item) result)
  end.

End Entries.

Fixpoint toSerializableJsonValue (value : JsValue) : JsValue :=
  match value with
  | VUndefined | VNull => VNull
  | VStr _ | VNum _ | VBool _ => value
  | VArr items => VArr (map toSerializableJsonValue items)
  | VObj fields => VObj (copy_entries toSerializableJsonValue fields [])
  | VOther repr => VStr repr
  end.

Definition sanitizeShapeMeta (meta : JsValue) : JsValue :=
  if negb (isPlainObject meta) then VObj []
  else toSerializableJsonValue meta.

(** The properties of an object value, as a spread copies them. *)
Definition own_fields (v : JsValue) : JsObject :=
  match v with VObj fields => fields | _ => [] end.

Definition createAiMeta (now : Z) : JsObject :=
  [ ("source", VStr "ai");
    ("author", VStr "Deliberatorium Agent");
    ("timestamp", VNum (inject_Z now)) ].

Definition createHumanMeta (name : string) (now : Z) : JsObject :=
  [ ("source", VStr "human");
    ("author", VStr name);
    ("timestamp", VNum (inject_Z now)) ].

(** A canvas shape, with the fields the action utils fill in. *)
Record TLShape := {
  shape_id : string;
  shape_type : string;
  shape_x : JsValue;
  shape_y : JsValue;
  shape_props : JsObject;
  shape_meta : JsValue
}.

Definition applyAiStyle (now : Z) (shape : TLShape) : TLShape :=
  let props := shape_props shape in
  let props := if obj_has "color" props then obj_set "color" (VStr "yellow") props else props in
  let props :=
    if obj_has "fill" props &&
       (String.eqb (shape_type shape) "geo" || String.eqb (shape_type shape) "note")
    then obj_set "fill" (VStr "solid") props else props in
  {| shape_id := shape_id shape;
     shape_type := shape_type shape;
     shape_x := shape_x shape;
     shape_y := shape_y shape;
     shape_props := props;
     shape_meta :=
       VObj (spread (own_fields (sanitizeShapeMeta (shape_meta shape))) (createAiMeta now)) |}.

Definition applyHumanStyle (now : Z) (shape : TLShape) (color author : string) : TLShape :=
  let props := shape_props shape in
  let props := if obj_has "color" props then obj_set "color" (VStr color) props else props in
  {| shape_id := shape_id shape;
     shape_type := shape_type shape;
     shape_x := shape_x shape;
     shape_y := shape_y shape;
     shape_props := props;
     shape_meta :=
       VObj (spread (own_fields (sanitizeShapeMeta (shape_meta shape))) (createHumanMeta author now)) |}.

End ShapeMeta.

(* ===================================================================== *)
(** * Agent action utils (actions/) *)
(* ===================================================================== *)

Module Agent.

Import ShapeMeta.

(** An optional shape reference of an action: absent while the action is
    streamed, null when a helper found no such shape. *)
Inductive ShapeRef : Type :=
| RefUndefined
| RefNull
| Ref (id : string).

(** The text a template literal gives for a shape reference. *)
Definition ref_text (r : ShapeRef) : string :=
  match r with
  | RefUndefined => "undefined"
  | RefNull => "null"
  | Ref id => id
  end.

Definition ref_value (r : ShapeRef) : JsValue :=
  match r with
  | RefUndefined => VUndefined
  | RefNull => VNull
  | Ref id => VStr id
  end.

(** The helper methods of AgentHelpers the action utils call.  The class
    is outside these sources, so its methods are arguments. *)
Record AgentHelpers := {
  ensureShapeIdIsUnique : string -> string;
  ensureShapeIdExists : ShapeRef -> ShapeRef;
  ensureValueIsNumber : JsValue -> option number
}.

(** What the toolkit and the runtime supply during one call:
    [toRichText], the id the next [createShapeId()] returns and the
    value of [Date.now()]. *)
Record Runtime := {
  toRichText : string -> JsValue;
  createShapeId : string;
  Date_now : Z
}.

Record Vec := { vec_x : number; vec_y : number }.

(** The page bounds of a shape; the action utils read their center. *)
Record Box := { center : Vec }.

(** The part of the editor the action utils read. *)
Record Editor := {
  getShape : string -> option TLShape;
  getShapePageBounds : TLShape -> option Box
}.

(** The calls an action issues on the editor that change the document. *)
Inductive EditorCall : Type :=
| CreateShape (shape : TLShape).

(** [action.shapeId ? `shape:${action.shapeId}` : createShapeId()] *)
Definition shape_id_for (rt : Runtime) (shapeId : option string) : string :=
  match shapeId with
  | Some id => if truthy (VStr id) then "shape:" ++ id else createShapeId rt
  | None => createShapeId rt
  end.

(** [if (action.shapeId) action.shapeId = helpers.ensureShapeIdIsUnique(action.shapeId)] *)
Definition unique_shape_id (helpers : AgentHelpers) (shapeId : option string) : option string :=
  match shapeId with
  | Some id => if truthy (VStr id) then Some (ensureShapeIdIsUnique helpers id) else Some id
  | None => None
  end.

Definition opt_string_value (s : option string) : JsValue :=
  match s with Some t => VStr t | None => VUndefined end.

(** The document after the calls of an action, for a toolkit whose
    [editor.createShape] takes document [doc] to [createShape doc shape]. *)
Definition run_calls {Doc : Type} (createShape : Doc -> TLShape -> Doc)
    (calls : list EditorCall) (doc : Doc) : Doc :=
  fold_left (fun d call => match call with CreateShape shape => createShape d shape end)
            calls doc.

End Agent.

Module CreateConceptNodeActionUtil.

Import ShapeMeta Agent.

(** A streamed create-concept-node action.  The numeric fields are what
    the model proposed, of any type, until [sanitizeAction] coerces
    them. *)
Record CreateConceptNodeAction := {
  shapeId : option string;
  w : JsValue;
  h : JsValue;
  x : JsValue;
  y : JsValue;
  label : string;
  note : option string;
  intent : option string;
  complete : bool
}.

Definition getInfo (action : CreateConceptNodeAction) : string * string :=
  ("pencil", nullish (intent action) "Create a concept node").

Definition sanitizeAction (action : CreateConceptNodeAction) (helpers : AgentHelpers)
  : CreateConceptNodeAction :=
  {| shapeId := unique_shape_id helpers (shapeId action);
     w := VNum (Qmax 180 (nullish (ensureValueIsNumber helpers (w action)) 240%Q));
     h := VNum (Qmax 100 (nullish (ensureValueIsNumber helpers (h action)) 140%Q));
     x := VNum (nullish (ensureValueIsNumber helpers (x action)) 0%Q);
     y := VNum (nullish (ensureValueIsNumber helpers (y action)) 0%Q);
     label := label action;
     note := note action;
     intent := intent action;
     complete := complete action |}.

Definition applyAction (rt : Runtime) (action : CreateConceptNodeAction) : list EditorCall :=
  if negb (complete action) then []
  else
    let shapeId := shape_id_for rt (shapeId action) in
    let meta :=
      sanitizeShapeMeta
        (VObj [ ("note",
                 match note action with
                 | Some n => VStr n
                 | None => opt_string_value (intent action)
                 end);
                ("kind", VStr "concept-node") ]) in
    let shape :=
      applyAiStyle (Date_now rt)
        {| shape_id := shapeId;
           shape_type := "geo";
           shape_x := x action;
           shape_y := y action;
           shape_props :=
             [ ("geo", VStr "rectangle");
               ("w", w action);
               ("h", h action);
               ("dash", VStr "draw");
               ("color", VStr "yellow");
               ("fill", VStr "solid");
               ("size", VStr "s");
               ("font", VStr "draw");
               ("align", VStr "middle");
               ("verticalAlign", VStr "middle");
               ("richText", toRichText rt (label action)) ];
           shape_meta := meta |} in
    [CreateShape shape].

End CreateConceptNodeActionUtil.

Module CreateRelationshipEdgeActionUtil.

Import ShapeMeta Agent.

Record CreateRelationshipEdgeAction := {
  fromShapeId : ShapeRef;
  toShapeId : ShapeRef;
  shapeId : option string;
  bend : JsValue;
  label : option string;
  intent : option string;
  complete : bool
}.

Definition getInfo (action : CreateRelationshipEdgeAction) : string * string :=
  ("pencil", nullish (intent action) "Create relationship edge").

Definition sanitizeAction (action : CreateRelationshipEdgeAction) (helpers : AgentHelpers)
  : CreateRelationshipEdgeAction :=
  {| fromShapeId := ensureShapeIdExists helpers (fromShapeId action);
     toShapeId := ensureShapeIdExists helpers (toShapeId action);
     shapeId := unique_shape_id helpers (shapeId action);
     bend := VNum (nullish (ensureValueIsNumber helpers (bend action)) 0%Q);
     label := label action;
     intent := intent action;
     complete := complete action |}.

Definition applyAction (editor : Editor) (rt : Runtime) (action : CreateRelationshipEdgeAction)
  : list EditorCall :=
  if negb (complete action) then []
  else
    let fromId := "shape:" ++ ref_text (fromShapeId action) in
    let toId := "shape:" ++ ref_text (toShapeId action) in
    match getShape editor fromId, getShape editor toId with
    | Some fromShape, Some toShape =>
        match getShapePageBounds editor fromShape, getShapePageBounds editor toShape with
        | Some fromBounds, Some toBounds =>
            let start := center fromBounds in
            let end_ := center toBounds in
            let x := Qmin (vec_x start) (vec_x end_) in
            let y := Qmin (vec_y start) (vec_y end_) in
            let shapeId := shape_id_for rt (shapeId action) in
            let meta :=
              sanitizeShapeMeta
                (VObj [ ("note", opt_string_value (intent action));
                        ("kind", VStr "relationship-edge");
                        ("fromShapeId", ref_value (fromShapeId action));
                        ("toShapeId", ref_value (toShapeId action)) ]) in
            let shape :=
              applyAiStyle (Date_now rt)
                {| shape_id := shapeId;
                   shape_type := "arrow";
                   shape_x := VNum x;
                   shape_y := VNum y;
                   shape_props :=
                     [ ("start", VObj [ ("x", VNum (vec_x start - x)%Q);
                                        ("y", VNum (vec_y start - y)%Q) ]);
                       ("end", VObj [ ("x", VNum (vec_x end_ - x)%Q);
                                      ("y", VNum (vec_y end_ - y)%Q) ]);
                       ("arrowheadStart", VStr "none");
                       ("arrowheadEnd", VStr "arrow");
                       ("bend", bend action);
                       ("dash", VStr "draw");
                       ("color", VStr "yellow");
                       ("labelColor", VStr "yellow");
                       ("fill", VStr "none");
                       ("font", VStr "draw");
                       ("size", VStr "s");
                       ("richText", toRichText rt (nullish (label action) "")) ];
                   shape_meta := meta |} in
            [CreateShape shape]
        | _, _ => []
        end
    | _, _ => []
    end.

End CreateRelationshipEdgeActionUtil.

(* ===================================================================== *)
(** * Workspace storage (deliberatorium/storage) *)
(* ===================================================================== *)

Module Storage.

(** An entry of [window.localStorage], by what [JSON.parse] makes of
    its text: the empty string, a text on which [JSON.parse] throws, or
    the text of a JSON value.  [JSON.stringify] followed by [JSON.parse]
    gives back the value written, so a write stores [JsonText v]. *)
Inductive StoredText : Type :=
| EmptyText
| Malformed
| JsonText (v : JsValue).

Abbreviation LocalStorage := (gmap string StoredText).

(** [window] is absent outside a browser ([typeof window === 'undefined']). *)
Abbreviation Window := (option (gmap string StoredText)).

Definition READING_KEY := "deliberatorium.readings.v1".
Definition WORKSPACE_KEY := "deliberatorium.workspace.v1".

Definition DEFAULT_CORE_FOLDER_ID := "core-workspaces".
Definition DEFAULT_READINGS_FOLDER_ID := "readings".
Definition DEFAULT_SKETCHES_FOLDER_ID := "sketches".

Definition MAX_READING_CHARS : N := 18000.

Record ReadingDocument := {
  id : string;
  title : string;
  content : string;
  createdAt : Z
}.

Record WorkspaceFolder := {
  folder_id : string;
  folder_name : string;
  folder_parentId : option string;
  folder_createdAt : Z
}.

Inductive WorkspaceFileType : Type := canvas | reading.

Record WorkspaceFile := {
  file_id : string;
  file_name : string;
  file_parentId : option string;
  file_type : WorkspaceFileType;
  file_createdAt : Z;
  file_canvasKey : string;
  file_readingId : option string
}.

(** The objects the records are at run time. *)
Definition parent_value (p : option string) : JsValue :=
  match p with Some s => VStr s | None => VNull end.

Definition reading_value (r : ReadingDocument) : JsValue :=
  VObj [ ("id", VStr (id r)); ("title", VStr (title r));
         ("content", VStr (content r)); ("createdAt", VNum (inject_Z (createdAt r))) ].

Definition folder_value (f : WorkspaceFolder) : JsValue :=
  VObj [ ("id", VStr (folder_id f)); ("name", VStr (folder_name f));
         ("parentId", parent_value (folder_parentId f));
         ("createdAt", VNum (inject_Z (folder_createdAt f))) ].

Definition file_type_value (t : WorkspaceFileType) : JsValue :=
  match t with canvas => VStr "canvas" | reading => VStr "reading" end.

Definition file_value (f : WorkspaceFile) : JsValue :=
  VObj ([ ("id", VStr (file_id f)); ("name", VStr (file_name f));
          ("parentId", parent_value (file_parentId f));
          ("type", file_type_value (file_type f));
          ("createdAt", VNum (inject_Z (file_createdAt f)));
          ("canvasKey", VStr (file_canvasKey f)) ]
        ++ match file_readingId f with
           | Some r => [("readingId", VStr r)]
           | None => []
           end)%list.

(** The entries of a loaded state are whatever the stored text held:
    the loader casts, it does not check the fields' types. *)
Record WorkspaceState := {
  folders : list JsValue;
  files : list JsValue
}.

Definition workspace_value (ws : WorkspaceState) : JsValue :=
  VObj [ ("folders", VArr (folders ws)); ("files", VArr (files ws)) ].

Definition core_folder (t : Z) : WorkspaceFolder :=
  {| folder_id := DEFAULT_CORE_FOLDER_ID; folder_name := "Core Workspaces";
     folder_parentId := None; folder_createdAt := t |}.

Definition readings_folder (t : Z) : WorkspaceFolder :=
  {| folder_id := DEFAULT_READINGS_FOLDER_ID; folder_name := "Readings";
     folder_parentId := None; folder_createdAt := t |}.

Definition sketches_folder (t : Z) : WorkspaceFolder :=
  {| folder_id := DEFAULT_SKETCHES_FOLDER_ID; folder_name := "Sketches";
     folder_parentId := None; folder_createdAt := t |}.

Definition weekly_prep_file (t : Z) : WorkspaceFile :=
  {| file_id := "weekly-prep"; file_name := "Weekly Prep";
     file_parentId := Some DEFAULT_CORE_FOLDER_ID; file_type := canvas;
     file_createdAt := t; file_canvasKey := "deliberatorium-weekly-prep";
     file_readingId := None |}.

Definition question_space_file (t : Z) : WorkspaceFile :=
  {| file_id := "question-space"; file_name := "Question Space";
     file_parentId := Some DEFAULT_CORE_FOLDER_ID; file_type := canvas;
     file_createdAt := t; file_canvasKey := "deliberatorium-question-space";
     file_readingId := None |}.

(** [now k] is what the call number [k] of [Date.now()] returns during
    the invocation, counting from 0. *)
Definition createDefaultWorkspaceState (now : nat -> Z) : WorkspaceState :=
  {| folders := [ folder_value (core_folder (now 0%nat));
                  folder_value (readings_folder (now 1%nat));
                  folder_value (sketches_folder (now 2%nat)) ];
     files := [ file_value (weekly_prep_file (now 3%nat));
                file_value (question_space_file (now 4%nat)) ] |}.

(** [item?.a && item?.b ...] as a filter predicate. *)
Definition has_all (keys : list string) (item : JsValue) : bool :=
  forallb (fun key => truthy (opt_get item key)) keys.

(** [entry.id === id] *)
Definition id_is (wanted : string) (entry : JsValue) : bool :=
  match opt_get entry "id" with
  | VStr s => String.eqb s wanted
  | _ => false
  end.

(** [if (!present) list.push(make(Date.now()))], with the number of clock
    readings made so far. *)
Definition push_unless (now : nat -> Z) (present : bool) (make : Z -> JsValue)
    (acc : list JsValue * nat) : list JsValue * nat :=
  if present then acc
  else ((fst acc ++ [make (now (snd acc))])%list, S (snd acc)).

Definition loadReadings (window : Window) : list JsValue :=
  match window with
  | None => []
  | Some localStorage =>
      match localStorage !! READING_KEY with
      | None | Some EmptyText => []
      | Some Malformed => []
      | Some (JsonText parsed) =>
          match parsed with
          | VArr items => List.filter (has_all ["id"; "title"; "content"]) items
          | _ => []
          end
      end
  end.

Definition saveReadings (window : Window) (readings : list ReadingDocument) : Window :=
  match window with
  | None => None
  | Some localStorage =>
      Some (<[READING_KEY := JsonText (VArr (map reading_value readings))]> localStorage)
  end.

Definition loadWorkspaceState (window : Window) (now : nat -> Z) : WorkspaceState :=
  match window with
  | None => createDefaultWorkspaceState now
  | Some localStorage =>
      match localStorage !! WORKSPACE_KEY with
      | None | Some EmptyText => createDefaultWorkspaceState now
      | Some Malformed => createDefaultWorkspaceState now
      | Some (JsonText parsed) =>
          match truthy parsed, opt_get parsed "folders", opt_get parsed "files" with
          | true, VArr parsed_folders, VArr parsed_files =>
              let folders := List.filter (has_all ["id"; "name"]) parsed_folders in
              let files := List.filter (has_all ["id"; "name"; "canvasKey"]) parsed_files in
              let hasCore := existsb (id_is DEFAULT_CORE_FOLDER_ID) folders in
              let hasReadingsFolder := existsb (id_is DEFAULT_READINGS_FOLDER_ID) folders in
              let hasSketchesFolder := existsb (id_is DEFAULT_SKETCHES_FOLDER_ID) folders in
              let hasWeekly := existsb (id_is "weekly-prep") files in
              let hasQuestion := existsb (id_is "question-space") files in
              let next_folders :=
                push_unless now hasSketchesFolder (fun t => folder_value (sketches_folder t))
                  (push_unless now hasReadingsFolder (fun t => folder_value (readings_folder t))
                     (push_unless now hasCore (fun t => folder_value (core_folder t))
                        (folders, 0%nat))) in
              let next_files :=
                push_unless now hasQuestion (fun t => file_value (question_space_file t))
                  (push_unless now hasWeekly (fun t => file_value (weekly_prep_file t))
                     (files, snd next_folders)) in
              {| folders := fst next_folders; files := fst next_files |}
          | _, _, _ => createDefaultWorkspaceState now
          end
      end
  end.

Definition saveWorkspaceState (window : Window) (workspace : WorkspaceState) : Window :=
  match window with
  | None => None
  | Some localStorage =>
      Some (<[WORKSPACE_KEY := JsonText (workspace_value workspace)]> localStorage)
  end.

(** [s.slice(a, b)] for [0 <= a <= b]. *)
Fixpoint str_drop (n : nat) (s : string) : string :=
  match n, s with
  | O, _ => s
  | _, EmptyString => EmptyString
  | S n', String _ rest => str_drop n' rest
  end.

Definition slice (a b : nat) (s : string) : string := slice0 (b - a) (str_drop a s).

(** [random36] is the text of [Math.random().toString(36)]. *)
Definition createReadingDocument (now : nat -> Z) (random36 : string)
    (fileName content : string) : ReadingDocument :=
  let normalized := slice0 (N.to_nat MAX_READING_CHARS) (trim (replace_spaces content)) in
  {| id := Z_to_string (now 0%nat) ++ "-" ++ slice 2 8 random36;
     title := fileName;
     content := normalized;
     createdAt := now 1%nat |}.

End Storage.

(* ===================================================================== *)
(** * Reading context prompt part (parts/ReadingContextPartUtil) *)
(* ===================================================================== *)

Module ReadingContextPartUtil.

Definition MAX_CONTEXT_ITEMS : N := 8.
Definition MAX_READING_CHARS : N := 3500.

Record ReadingContextItem := {
  id : JsValue;
  title : JsValue;
  createdAt : JsValue;
  content : JsValue
}.

(** [value.slice(0, n)]: a string or an array has the method; on any
    other value the call raises a TypeError ([None]). *)
Definition slice_value (n : nat) (value : JsValue) : option JsValue :=
  match value with
  | VStr s => Some (VStr (slice0 n s))
  | VArr items => Some (VArr (firstn n items))
  | _ => None
  end.

Definition context_item (reading : JsValue) : option ReadingContextItem :=
  match slice_value (N.to_nat MAX_READING_CHARS) (opt_get reading "content") with
  | Some c =>
      Some {| id := opt_get reading "id";
              title := opt_get reading "title";
              createdAt := opt_get reading "createdAt";
              content := c |}
  | None => None
  end.

(** The readings of the part; [None] when the call raises. *)
Definition getPart (window : Storage.Window) : option (list ReadingContextItem) :=
  mapM context_item
    (rev (slice_last (N.to_nat MAX_CONTEXT_ITEMS) (Storage.loadReadings window))).

End ReadingContextPartUtil.

(* ===================================================================== *)
(** * Live transcription hook (components/useAssemblyAiAgentNotecards) *)
(* ===================================================================== *)

Module AssemblyAiAgentNotecards.

(** A parsed socket message.  An absent field is [None]; [turn_order]
    is the integer sequence number the service sends. *)
Record AssemblyAiTurnMessage := {
  type : option string;
  transcript : option string;
  end_of_turn : option bool;
  turn_is_formatted : option bool;
  turn_order : option Z;
  id : option string;
  speaker : option string;
  speaker_id : option string
}.

Inductive AssemblyAiStatus : Type :=
| idle | connecting | listening | reconnecting | status_error.

Definition CARD_WIDTH : Z := 320.
Definition CARD_HEIGHT : Z := 140.
Definition CARD_GAP : Z := 24.

(** The fields of [editor.getViewportPageBounds()] the hook reads. *)
Record Viewport := {
  viewport_h : number;
  viewport_maxX : number;
  viewport_minY : number
}.

Record BoxModel := { x : number; y : number; w : number; h : number }.

(** What the agent and the clock answer while one message is handled. *)
Record Agent := {
  getViewportPageBounds : Viewport;
  getItems : list JsValue;
  Date_now : Z
}.

(** The request handed to [agent.schedule]. *)
Record AgentRequest := {
  source : string;
  bounds : BoxModel;
  contextItems : list JsValue;
  userMessages : list string;
  agentMessages : list string
}.

(** The timer [window.setTimeout(() => connect(nextAttempt), timeout)]. *)
Record ReconnectTimer := { timer_timeout : N; timer_attempt : N }.

(** The hook's React state and refs.  [ws] and [audio] tell whether the
    socket ref and the audio pipeline refs hold a resource. *)
Record HookState := {
  status : AssemblyAiStatus;
  isListening : bool;
  error : option string;
  liveTranscript : string;
  lastTurnSummary : string;
  processedTurnIds : gset string;
  slot : Z;
  ws : bool;
  audio : bool;
  shouldReconnect : bool;
  reconnectTimeout : option ReconnectTimer
}.

(** The state a mounted hook starts in. *)
Definition initial : HookState :=
  {| status := idle; isListening := false; error := None;
     liveTranscript := ""; lastTurnSummary := "";
     processedTurnIds := ∅; slot := 0; ws := false; audio := false;
     shouldReconnect := false; reconnectTimeout := None |}.

Definition setLiveTranscript (t : string) (st : HookState) : HookState :=
  {| status := status st; isListening := isListening st; error := error st;
     liveTranscript := t; lastTurnSummary := lastTurnSummary st;
     processedTurnIds := processedTurnIds st; slot := slot st; ws := ws st;
     audio := audio st; shouldReconnect := shouldReconnect st;
     reconnectTimeout := reconnectTimeout st |}.

Definition setLastTurnSummary (t : string) (st : HookState) : HookState :=
  {| status := status st; isListening := isListening st; error := error st;
     liveTranscript := liveTranscript st; lastTurnSummary := t;
     processedTurnIds := processedTurnIds st; slot := slot st; ws := ws st;
     audio := audio st; shouldReconnect := shouldReconnect st;
     reconnectTimeout := reconnectTimeout st |}.

Definition add_processed (turnId : string) (st : HookState) : HookState :=
  {| status := status st; isListening := isListening st; error := error st;
     liveTranscript := liveTranscript st; lastTurnSummary := lastTurnSummary st;
     processedTurnIds := {[ turnId ]} ∪ processedTurnIds st; slot := slot st;
     ws := ws st; audio := audio st; shouldReconnect := shouldReconnect st;
     reconnectTimeout := reconnectTimeout st |}.

Definition next_slot (st : HookState) : HookState :=
  {| status := status st; isListening := isListening st; error := error st;
     liveTranscript := liveTranscript st; lastTurnSummary := lastTurnSummary st;
     processedTurnIds := processedTurnIds st; slot := slot st + 1;
     ws := ws st; audio := audio st; shouldReconnect := shouldReconnect st;
     reconnectTimeout := reconnectTimeout st |}.

Definition getPlacementBounds (agent : Agent) (st : HookState) : BoxModel * HookState :=
  let viewport := getViewportPageBounds agent in
  let cardsPerColumn :=
    Z.max 1 (Qfloor ((viewport_h viewport - inject_Z (CARD_GAP * 2))
                     / inject_Z (CARD_HEIGHT + CARD_GAP))%Q) in
  let slot := slot st in
  let column := slot / cardsPerColumn in
  let row := slot mod cardsPerColumn in
  let laneX := (viewport_maxX viewport - inject_Z CARD_WIDTH - inject_Z CARD_GAP)%Q in
  let x := (laneX + inject_Z (column * (CARD_WIDTH + CARD_GAP)))%Q in
  let y := (viewport_minY viewport + inject_Z CARD_GAP
            + inject_Z (row * (CARD_HEIGHT + CARD_GAP)))%Q in
  ({| x := (x - 16)%Q; y := (y - 16)%Q;
      w := inject_Z (CARD_WIDTH + 32); h := inject_Z (CARD_HEIGHT + 32) |},
   next_slot st).

Definition join_lines (lines : list string) : string :=
  String.concat (String (ascii_of_nat 10) EmptyString) lines.

(** The triple quote around the transcript in the agent message. *)
Definition triple_quote : string :=
  let q := String (ascii_of_nat 34) EmptyString in q ++ q ++ q.

(** One finalized turn: the new state and the request scheduled on the
    agent, if any. *)
Definition queueTurnAsNotecard (agent : Agent) (turn : AssemblyAiTurnMessage)
    (st : HookState) : HookState * option AgentRequest :=
  match option_map trim (transcript turn) with
  | None => (st, None)
  | Some transcript =>
      if negb (truthy (VStr transcript)) then (st, None)
      else
        let turnId :=
          match id turn with
          | Some i => i
          | None =>
              match turn_order turn with
              | Some n => "turn-" ++ Z_to_string n
              | None => "turn-" ++ Z_to_string (Date_now agent) ++ "-" ++ slice0 20 transcript
              end
          end in
        if bool_decide (turnId ∈ processedTurnIds st) then (st, None)
        else
          let st := add_processed turnId st in
          let speakerLabel :=
            match speaker turn with
            | Some s => s
            | None => nullish (speaker_id turn) "Speaker"
            end in
          let '(bounds, st) := getPlacementBounds agent st in
          let st := setLastTurnSummary (speakerLabel ++ ": " ++ transcript) st in
          (st,
           Some {| source := "self";
                   bounds := bounds;
                   contextItems := getItems agent;
                   userMessages := ["Auto note (" ++ speakerLabel ++ ")"];
                   agentMessages :=
                     [ join_lines
                         [ "You are processing one finalized speaker turn from a live discussion.";
                           "Create exactly one new notecard as a concept node.";
                           "Required action constraints:";
                           "- Use exactly one create-concept-node action.";
                           "- Do not create edges.";
                           "- Do not move, update, or delete existing shapes.";
                           "- Place the card fully within the provided viewport bounds.";
                           "- Keep label concise (max 120 characters), capturing the single strongest point.";
                           "- Optional note may include one brief supporting detail (max 220 characters).";
                           "Speaker: " ++ speakerLabel;
                           "Turn transcript: " ++ triple_quote ++ transcript ++ triple_quote ] ] |})
  end.

(** The text of a socket message: [None] when [JSON.parse] throws. *)
Definition handleSocketMessage (agent : Agent) (raw : option AssemblyAiTurnMessage)
    (st : HookState) : HookState * option AgentRequest :=
  match raw with
  | None => (st, None)
  | Some message =>
      match type message, transcript message with
      | Some t, Some text =>
          if String.eqb t "Turn" then
            if nullish (end_of_turn message) false || nullish (turn_is_formatted message) false
            then queueTurnAsNotecard agent message (setLiveTranscript "" st)
            else (setLiveTranscript text st, None)
          else (st, None)
      | _, _ => (st, None)
      end
  end.

(** The data of a socket event: binary, or text with its parse. *)
Inductive MessageData : Type :=
| Binary
| Text (parsed : option AssemblyAiTurnMessage).

Definition ws_onmessage (agent : Agent) (data : MessageData) (st : HookState)
  : HookState * option AgentRequest :=
  match data with
  | Binary => (st, None)
  | Text raw => handleSocketMessage agent raw st
  end.

(** [ws.onclose] of the socket opened by [connect(attempt)]. *)
Definition ws_onclose (attempt : N) (st : HookState) : HookState :=
  if negb (shouldReconnect st) then
    {| status := idle; isListening := false; error := error st;
       liveTranscript := liveTranscript st; lastTurnSummary := lastTurnSummary st;
       processedTurnIds := processedTurnIds st; slot := slot st;
       ws := false; audio := false; shouldReconnect := shouldReconnect st;
       reconnectTimeout := reconnectTimeout st |}
  else
    let nextAttempt := (attempt + 1)%N in
    let timeout := N.min (1000 * 2 ^ N.min nextAttempt 5) 15000 in
    {| status := status st; isListening := false; error := error st;
       liveTranscript := liveTranscript st; lastTurnSummary := lastTurnSummary st;
       processedTurnIds := processedTurnIds st; slot := slot st;
       ws := false; audio := false; shouldReconnect := shouldReconnect st;
       reconnectTimeout :=
         Some {| timer_timeout := timeout; timer_attempt := nextAttempt |} |}.

Definition stop (st : HookState) : HookState :=
  {| status := idle; isListening := false; error := error st;
     liveTranscript := ""; lastTurnSummary := lastTurnSummary st;
     processedTurnIds := processedTurnIds st; slot := slot st;
     ws := false; audio := false; shouldReconnect := false;
     reconnectTimeout := None |}.

(** The messages of a session in order, each with what the agent and the
    clock answer when it arrives, and the request each one schedules. *)
Fixpoint deliver (events : list (Agent * MessageData)) (st : HookState)
  : HookState * list (option AgentRequest) :=
  match events with
  | [] => (st, [])
  | (agent, data) :: rest =>
      let '(st1, out) := ws_onmessage agent data st in
      let '(st2, outs) := deliver rest st1 in
      (st2, out :: outs)
  end.

End AssemblyAiAgentNotecards.

(* ===================================================================== *)
(** * Worker token route (worker/routes/assemblyAiToken) *)
(* ===================================================================== *)

Module Worker.

Definition DEFAULT_TOKEN_DURATION_SECONDS : Z := 600.

Record Environment := { ASSEMBLYAI_API_KEY : option string }.

(** The upstream answer to the token request: [fetch] rejects, or a
    response with its [ok] flag, status, text and, for [json()], the
    parsed body ([None] when the body is not JSON). *)
Inductive Upstream : Type :=
| FetchRejected
| Responded (ok : bool) (status : Z) (text : string) (json : option JsValue).

Record Response := { status : Z; body : JsObject }.

(** The handler returns a response or its promise rejects. *)
Inductive Outcome : Type :=
| Returned (r : Response)
| Rejected.

(** [Response.json(body, { status })]; the status defaults to 200. *)
Definition Response_json (body : JsObject) (status : Z) : Response :=
  {| status := status; body := body |}.

(** [data.key]: a TypeError on undefined and null. *)
Definition member (data : JsValue) (key : string) : option JsValue :=
  match data with
  | VUndefined | VNull => None
  | _ => Some (opt_get data key)
  end.

(** [value ?? fallback] *)
Definition coalesce (value fallback : JsValue) : JsValue :=
  match value with
  | VUndefined | VNull => fallback
  | _ => value
  end.

Definition assemblyAiToken (_request : JsValue) (env : Environment) (upstream : Upstream)
  : Outcome :=
  if negb (truthy (Agent.opt_string_value (ASSEMBLYAI_API_KEY env))) then
    Returned (Response_json [("error", VStr "AssemblyAI key is not configured.")] 500)
  else
    match upstream with
    | FetchRejected => Rejected
    | Responded ok _ _ json =>
        if negb ok then
          Returned (Response_json [("error", VStr "Failed to get AssemblyAI token.")] 502)
        else
          match json with
          | None => Rejected
          | Some data =>
              match member data "token" with
              | None => Rejected
              | Some token =>
                  if negb (truthy token) then
                    Returned
                      (Response_json
                         [("error", coalesce (opt_get data "error")
                                      (VStr "AssemblyAI token was empty."))] 502)
                  else
                    Returned
                      (Response_json
                         [ ("token", token);
                           ("expiresInSeconds",
                            VNum (inject_Z DEFAULT_TOKEN_DURATION_SECONDS)) ] 200)
              end
          end
    end.

End Worker.

(* ===================================================================== *)
(** * Properties: reconnection *)
(* ===================================================================== *)

Module ReconnectFacts.

Import AssemblyAiAgentNotecards.

(** A hook that is listening and wants to stay connected. *)
Definition listening_state : HookState :=
  {| status := listening; isListening := true; error := None;
     liveTranscript := ""; lastTurnSummary := "";
     processedTurnIds := ∅; slot := 0; ws := true; audio := true;
     shouldReconnect := true; reconnectTimeout := None |}.

(** The exponent cap never shows: past attempt 5 the 15 s cap already
    applies. *)
Lemma capped_exponent (n : N) :
  N.min (1000 * 2 ^ N.min n 5) 15000 = N.min (1000 * 2 ^ n) 15000.
Proof.
  destruct (N.le_gt_cases n 5) as [Hle | Hgt].
  - now rewrite (N.min_l n 5).
  - rewrite (N.min_r n 5) by lia.
    assert (2 ^ 5 <= 2 ^ n)%N as Hpow by (apply N.pow_le_mono_r; lia).
    change (2 ^ 5)%N with 32%N in *.
    rewrite !N.min_r; lia.
Qed.

(** C1, as the specification words it, fails on the first close: the
    socket of attempt 0 is retried after 2000 ms, not after
    min(1000 * 2^0, 15000) = 1000 ms. *)
Lemma reconnect_delay_attempt0_counterexample :
  reconnectTimeout (ws_onclose 0 listening_state)
    = Some {| timer_timeout := 2000; timer_attempt := 1 |}
  /\ N.min (1000 * 2 ^ 0) 15000 = 1000%N
  /\ 2000%N <> 1000%N.
Proof. repeat split; discriminate. Qed.

(** C1 (amended): when the socket opened by attempt [a] closes while
    reconnection is still desired, attempt [a + 1] is scheduled after
    min(1000 * 2^(a+1), 15000) milliseconds; the delay follows the number
    of the attempt being scheduled, not of the one that closed. *)
Theorem reconnect_delay_follows_next_attempt (a : N) (st : HookState) :
  shouldReconnect st = true ->
  reconnectTimeout (ws_onclose a st)
    = Some {| timer_timeout := N.min (1000 * 2 ^ (a + 1)) 15000;
              timer_attempt := a + 1 |}.
Proof.
  intros Hwant. unfold ws_onclose. rewrite Hwant. cbn [negb reconnectTimeout].
  now rewrite capped_exponent.
Qed.

Lemma reconnect_delay_follows_next_attempt_witness :
  reconnectTimeout (ws_onclose 2 listening_state)
    = Some {| timer_timeout := 8000; timer_attempt := 3 |}.
Proof.
  exact (reconnect_delay_follows_next_attempt 2 listening_state eq_refl).
Defined.

(** The delays of the successive attempts: 2 s, 4 s, 8 s, then the cap. *)
Lemma reconnect_delay_table :
  map (fun a => option_map timer_timeout (reconnectTimeout (ws_onclose a listening_state)))
      [0; 1; 2; 3; 4; 5; 6]%N
  = map Some [2000; 4000; 8000; 15000; 15000; 15000; 15000]%N.
Proof. reflexivity. Qed.

(** After an explicit stop no retry is scheduled. *)
Lemma no_reconnect_after_stop (a : N) (st : HookState) :
  let st' := ws_onclose a (stop st) in
  reconnectTimeout st' = None /\ status st' = idle.
Proof. split; reflexivity. Qed.

End ReconnectFacts.

(* ===================================================================== *)
(** * Properties: concept node sizing *)
(* ===================================================================== *)

Module ConceptNodeFacts.

Import Agent CreateConceptNodeActionUtil.

(** Helpers that accept a number as it is and nothing else. *)
Definition plain_helpers : AgentHelpers :=
  {| ensureShapeIdIsUnique := fun id => id;
     ensureShapeIdExists := fun r => r;
     ensureValueIsNumber := fun v => match v with VNum n => Some n | _ => None end |}.

Definition proposal (width height : JsValue) : CreateConceptNodeAction :=
  {| shapeId := None; w := width; h := height; x := VUndefined; y := VUndefined;
     label := "idea"; note := None; intent := None; complete := true |}.

Lemma Qmax_lower_l (a b : Q) : (a <= Qmax a b)%Q.
Proof. apply Q.le_max_l. Qed.

(** [Math.max(a, b)] is [a] itself when [b] does not exceed it. *)
Lemma Qmax_clamps (a b : Q) : (b <= a)%Q -> Qmax a b = a.
Proof.
  intros Hle. unfold Qmax, GenericMinMax.gmax.
  destruct (Qcompare_spec a b) as [Heq | Hlt | Hgt]; try reflexivity.
  exfalso. apply (Qlt_not_le _ _ Hlt Hle).
Qed.

(** C2, as the specification words it, fails for the height: a proposed
    height of 120 is kept, although it is below 140. *)
Lemma concept_node_height_counterexample :
  h (sanitizeAction (proposal (VNum 200) (VNum 120)) plain_helpers) = VNum 120
  /\ ~ (140 <= 120)%Q.
Proof. split; [reflexivity | intros H; unfold Qle in H; cbn in H; lia]. Qed.

(** C2 (amended): after [sanitizeAction] the width is a number of at least
    180 and the height a number of at least 100; a proposed width below
    180 becomes 180 and a proposed height below 100 becomes 100.  (140 is
    the height used when none is proposed.) *)
Theorem concept_node_minimum_size (action : CreateConceptNodeAction) (helpers : AgentHelpers) :
  exists qw qh : Q,
    w (sanitizeAction action helpers) = VNum qw
    /\ h (sanitizeAction action helpers) = VNum qh
    /\ (180 <= qw)%Q /\ (100 <= qh)%Q
    /\ (forall n, ensureValueIsNumber helpers (w action) = Some n -> (n < 180)%Q -> qw = 180%Q)
    /\ (forall n, ensureValueIsNumber helpers (h action) = Some n -> (n < 100)%Q -> qh = 100%Q)
    /\ (ensureValueIsNumber helpers (w action) = None -> qw = 240%Q)
    /\ (ensureValueIsNumber helpers (h action) = None -> qh = 140%Q).
Proof.
  eexists _, _. cbn [sanitizeAction w h].
  split; [reflexivity |]. split; [reflexivity |].
  split; [apply Qmax_lower_l |]. split; [apply Qmax_lower_l |].
  repeat split.
  - intros n Hn Hlt. rewrite Hn. cbn. apply Qmax_clamps. now apply Qlt_le_weak.
  - intros n Hn Hlt. rewrite Hn. cbn. apply Qmax_clamps. now apply Qlt_le_weak.
  - intros Hn. rewrite Hn. reflexivity.
  - intros Hn. rewrite Hn. reflexivity.
Qed.

Lemma concept_node_minimum_size_witness :
  exists qw qh : Q,
    w (sanitizeAction (proposal (VNum 20) (VNum 30)) plain_helpers) = VNum qw
    /\ h (sanitizeAction (proposal (VNum 20) (VNum 30)) plain_helpers) = VNum qh
    /\ qw = 180%Q /\ qh = 100%Q.
Proof.
  destruct (concept_node_minimum_size (proposal (VNum 20) (VNum 30)) plain_helpers)
    as (qw & qh & Hw & Hh & _ & _ & Hcw & Hch & _).
  exists qw, qh. repeat split; try assumption.
  - apply (Hcw 20%Q); reflexivity.
  - apply (Hch 30%Q); reflexivity.
Defined.

End ConceptNodeFacts.

(* ===================================================================== *)
(** * Properties: shape metadata *)
(* ===================================================================== *)

Module ShapeMetaFacts.

Import ShapeMeta.

(** Every property value of [fields] satisfies [p]. *)
Definition all_values (p : JsValue -> bool) (fields : JsObject) : bool :=
  forallb (fun kv => p (snd kv)) fields.

Lemma obj_set_all_values (p : JsValue -> bool) (key : string) (v : JsValue) (fields : JsObject) :
  all_values p fields = true -> p v = true -> all_values p (obj_set key v fields) = true.
Proof.
  unfold all_values. intros Hall Hv.
  induction fields as [| [k old] rest IH]; cbn in *.
  - now rewrite Hv.
  - apply andb_true_iff in Hall as [Hold Hrest].
    destruct (String.eqb k key); cbn.
    + now rewrite Hv, Hrest.
    + now rewrite Hold, IH.
Qed.

Lemma copy_entries_all_values (p : JsValue -> bool) (convert : JsValue -> JsValue)
    (entries result : JsObject) :
  Forall (fun kv => p (convert (snd kv)) = true) entries ->
  all_values p result = true ->
  all_values p (copy_entries convert entries result) = true.
Proof.
  intros Hentries. revert result.
  induction Hentries as [| [key item] rest Hitem _ IH]; intros result Hres; cbn.
  - exact Hres.
  - destruct (is_undefined item).
    + now apply IH.
    + apply IH. now apply obj_set_all_values.
Qed.





(** What the sanitizer does to each kind of value, on one input. *)
Example sanitizeShapeMeta_sample :
  sanitizeShapeMeta
    (VObj [ ("note", VUndefined);
            ("kind", VStr "concept-node");
            ("when", VOther "Thu Jan 01 1970");
            ("tags", VArr [VUndefined; VNum 1; VOther "function f() {}"]) ])
  = VObj [ ("kind", VStr "concept-node");
           ("when", VStr "Thu Jan 01 1970");
           ("tags", VArr [VNull; VNum 1; VStr "function f() {}"]) ].
Proof. reflexivity. Qed.

Example sanitizeShapeMeta_not_plain :
  map sanitizeShapeMeta [VUndefined; VNull; VNum 3; VStr "meta"; VArr [VNum 1]; VOther "[object Map]"]
  = [VObj []; VObj []; VObj []; VObj []; VObj []; VObj []].
Proof. reflexivity. Qed.

End ShapeMetaFacts.

(* ===================================================================== *)
(** * Properties: relationship edges *)
(* ===================================================================== *)

Module EdgeFacts.

Import ShapeMeta Agent CreateRelationshipEdgeActionUtil.

(** Both endpoint shapes and both page bounds resolve in the editor. *)
Definition endpoints_resolve (editor : Editor) (action : CreateRelationshipEdgeAction) : bool :=
  match getShape editor ("shape:" ++ ref_text (fromShapeId action)),
        getShape editor ("shape:" ++ ref_text (toShapeId action)) with
  | Some fromShape, Some toShape =>
      match getShapePageBounds editor fromShape, getShapePageBounds editor toShape with
      | Some _, Some _ => true
      | _, _ => false
      end
  | _, _ => false
  end.

(** A canvas with two boxes, [a] centered at (10, 50) and [b] at (40, 20),
    and a shape [ghost] that has no page bounds. *)
Definition box_shape (id : string) : TLShape :=
  {| shape_id := id; shape_type := "geo"; shape_x := VNum 0; shape_y := VNum 0;
     shape_props := []; shape_meta := VObj [] |}.

Definition two_boxes : Editor :=
  {| getShape := fun id =>
       if String.eqb id "shape:a" then Some (box_shape "shape:a")
       else if String.eqb id "shape:b" then Some (box_shape "shape:b")
       else if String.eqb id "shape:ghost" then Some (box_shape "shape:ghost")
       else None;
     getShapePageBounds := fun shape =>
       if String.eqb (shape_id shape) "shape:a"
       then Some {| center := {| vec_x := 10%Q; vec_y := 50%Q |} |}
       else if String.eqb (shape_id shape) "shape:b"
       then Some {| center := {| vec_x := 40%Q; vec_y := 20%Q |} |}
       else None |}.

Definition runtime : Runtime :=
  {| toRichText := fun text => VObj [("text", VStr text)];
     createShapeId := "shape:fresh";
     Date_now := 1700000000000 |}.

Definition edge (from to : string) (done : bool) : CreateRelationshipEdgeAction :=
  {| fromShapeId := Ref from; toShapeId := Ref to; shapeId := Some "e1";
     bend := VNum 0; label := None; intent := Some "supports"; complete := done |}.

(** C7: [applyAction] issues a shape-creation call only for a complete
    action whose two endpoint shapes and their page bounds resolve, and
    then it issues exactly one; an incomplete action, a missing shape or
    missing bounds abort it with no call, which leaves the document as it
    was whatever the toolkit's [createShape] does. *)
Theorem edge_created_once_or_aborted (editor : Editor) (rt : Runtime)
    (action : CreateRelationshipEdgeAction) :
  if complete action && endpoints_resolve editor action
  then exists shape : TLShape,
         applyAction editor rt action = [CreateShape shape]
         /\ forall (Doc : Type) (createShape : Doc -> TLShape -> Doc) (doc : Doc),
              run_calls createShape (applyAction editor rt action) doc = createShape doc shape
  else applyAction editor rt action = []
       /\ forall (Doc : Type) (createShape : Doc -> TLShape -> Doc) (doc : Doc),
            run_calls createShape (applyAction editor rt action) doc = doc.
Proof.
  unfold applyAction, endpoints_resolve.
  destruct (complete action); cbn [negb andb].
  - destruct (getShape editor ("shape:" ++ ref_text (fromShapeId action))) as [fromShape |];
      [| now split].
    destruct (getShape editor ("shape:" ++ ref_text (toShapeId action))) as [toShape |];
      [| now split].
    destruct (getShapePageBounds editor fromShape) as [fromBounds |]; [| now split].
    destruct (getShapePageBounds editor toShape) as [toBounds |]; [| now split].
    eexists. split; reflexivity.
  - now split.
Qed.

(** The four ways to abort and the one way to succeed, on the sample canvas. *)
Example edge_abort_and_success :
  applyAction two_boxes runtime (edge "a" "b" false) = []
  /\ applyAction two_boxes runtime (edge "missing" "b" true) = []
  /\ applyAction two_boxes runtime (edge "a" "missing" true) = []
  /\ applyAction two_boxes runtime (edge "ghost" "b" true) = []
  /\ applyAction two_boxes runtime (edge "a" "ghost" true) = []
  /\ List.length (applyAction two_boxes runtime (edge "a" "b" true)) = 1%nat.
Proof. repeat split. Qed.




(** The arrow drawn between the two sample boxes. *)
Example edge_sample_geometry :
  match applyAction two_boxes runtime (edge "a" "b" true) with
  | [CreateShape shape] =>
      shape_x shape = VNum 10 /\ shape_y shape = VNum 20
      /\ obj_get "start" (shape_props shape)
         = Some (VObj [("x", VNum (10 - 10)); ("y", VNum (50 - 20))])
      /\ obj_get "end" (shape_props shape)
         = Some (VObj [("x", VNum (40 - 10)); ("y", VNum (20 - 20))])
  | _ => False
  end.
Proof. cbn. repeat split. Qed.

End EdgeFacts.

(* ===================================================================== *)
(** * Properties: turn deduplication *)
(* ===================================================================== *)

Module NotecardFacts.

Import AssemblyAiAgentNotecards.

(** The message is a parsed turn message carrying the id [i]. *)
Definition carries_id (i : string) (data : MessageData) : bool :=
  match data with
  | Text (Some message) => bool_decide (id message = Some i)
  | _ => false
  end.

Definition scheduled (out : option AgentRequest) : bool :=
  match out with Some _ => true | None => false end.

(** How many of the messages carrying id [i] made the agent schedule a
    request, given what each message of the session scheduled. *)
Fixpoint dispatches_for (i : string) (events : list (Agent * MessageData))
    (outs : list (option AgentRequest)) : nat :=
  match events, outs with
  | (_, data) :: events', out :: outs' =>
      (if carries_id i data && scheduled out then 1 else 0)%nat
      + dispatches_for i events' outs'
  | _, _ => 0%nat
  end.

Lemma getPlacementBounds_processed (agent : Agent) (st : HookState) :
  processedTurnIds (snd (getPlacementBounds agent st)) = processedTurnIds st.
Proof. reflexivity. Qed.

(** What a message does to the set of processed ids: nothing when it
    schedules nothing, and when it schedules a request the id it was
    filed under was new and is now recorded. *)
Lemma queueTurnAsNotecard_processed (agent : Agent) (turn : AssemblyAiTurnMessage)
    (st : HookState) :
  match snd (queueTurnAsNotecard agent turn st) with
  | None => processedTurnIds (fst (queueTurnAsNotecard agent turn st)) = processedTurnIds st
  | Some _ =>
      exists turnId : string,
        (turnId ∉ processedTurnIds st)
        /\ processedTurnIds (fst (queueTurnAsNotecard agent turn st))
           = {[ turnId ]} ∪ processedTurnIds st
        /\ (forall i, id turn = Some i -> turnId = i)
  end.
Proof.
  unfold queueTurnAsNotecard.
  destruct (option_map trim (transcript turn)) as [text |]; [| reflexivity].
  destruct (negb (truthy (VStr text))); [reflexivity |].
  match goal with
  | |- context [bool_decide (?t ∈ _)] => set (turnId := t)
  end.
  case_bool_decide as Hseen; [reflexivity |].
  cbn. exists turnId. split; [exact Hseen |]. split; [reflexivity |].
  intros i Hi. subst turnId. now rewrite Hi.
Qed.

Lemma ws_onmessage_processed (agent : Agent) (data : MessageData) (st : HookState) :
  match snd (ws_onmessage agent data st) with
  | None => processedTurnIds (fst (ws_onmessage agent data st)) = processedTurnIds st
  | Some _ =>
      exists turnId : string,
        (turnId ∉ processedTurnIds st)
        /\ processedTurnIds (fst (ws_onmessage agent data st))
           = {[ turnId ]} ∪ processedTurnIds st
        /\ (forall i, carries_id i data = true -> turnId = i)
  end.
Proof.
  destruct data as [| [message |]]; try reflexivity.
  unfold ws_onmessage, handleSocketMessage.
  destruct (type message) as [t |]; [| reflexivity].
  destruct (transcript message) as [text |] eqn:Htext; [| reflexivity].
  destruct (String.eqb t "Turn"); [| reflexivity].
  destruct (nullish (end_of_turn message) false || nullish (turn_is_formatted message) false);
    [| reflexivity].
  pose proof (queueTurnAsNotecard_processed agent message (setLiveTranscript "" st)) as Hq.
  destruct (snd (queueTurnAsNotecard agent message (setLiveTranscript "" st))); [| exact Hq].
  destruct Hq as (turnId & Hnew & Hadd & Hid).
  exists turnId. split; [exact Hnew |]. split; [exact Hadd |].
  intros i Hi. apply Hid. cbn in Hi. now apply bool_decide_eq_true in Hi.
Qed.

(** The set of processed ids only grows. *)
Lemma deliver_processed_grows (events : list (Agent * MessageData)) (st : HookState) :
  processedTurnIds st ⊆ processedTurnIds (fst (deliver events st)).
Proof.
  revert st. induction events as [| [agent data] rest IH]; intros st; [reflexivity |].
  cbn [deliver].
  pose proof (ws_onmessage_processed agent data st) as Hstep.
  destruct (ws_onmessage agent data st) as [st1 out] eqn:Hmsg. cbn [fst snd] in Hstep.
  specialize (IH st1).
  destruct (deliver rest st1) as [st2 outs] eqn:Hdel. cbn [fst] in *.
  transitivity (processedTurnIds st1); [| exact IH].
  destruct out; [destruct Hstep as (t & _ & -> & _); apply union_subseteq_r | now rewrite Hstep].
Qed.

(** Once an id is processed, no later message carrying it schedules
    anything, however many follow. *)
Lemma processed_id_stays_silent (i : string) (events : list (Agent * MessageData))
    (st : HookState) :
  i ∈ processedTurnIds st ->
  dispatches_for i events (snd (deliver events st)) = 0%nat.
Proof.
  revert st. induction events as [| [agent data] rest IH]; intros st Hseen; [reflexivity |].
  cbn [deliver].
  pose proof (ws_onmessage_processed agent data st) as Hstep.
  destruct (ws_onmessage agent data st) as [st1 out] eqn:Hmsg. cbn [fst snd] in Hstep.
  destruct (deliver rest st1) as [st2 outs] eqn:Hrest. cbn [snd dispatches_for].
  assert (i ∈ processedTurnIds st1) as Hseen1.
  { destruct out; [destruct Hstep as (t & _ & -> & _); set_solver | now rewrite Hstep]. }
  specialize (IH st1 Hseen1). rewrite Hrest in IH. cbn [snd] in IH. rewrite IH.
  destruct out as [request |]; [| now rewrite andb_false_r].
  destruct Hstep as (turnId & Hnew & _ & Hid).
  destruct (carries_id i data) eqn:Hcarries; [| reflexivity].
  exfalso. apply Hnew. now rewrite (Hid i Hcarries).
Qed.

(** From every state, the messages carrying one id schedule at most one
    request in total. *)
Lemma dispatches_for_at_most_one (i : string)
    (events : list (Agent * MessageData)) (st : HookState) :
  (dispatches_for i events (snd (deliver events st)) <= 1)%nat.
Proof.
  revert st. induction events as [| [agent data] rest IH]; intros st; [cbn; lia |].
  cbn [deliver].
  pose proof (ws_onmessage_processed agent data st) as Hstep.
  destruct (ws_onmessage agent data st) as [st1 out] eqn:Hmsg. cbn [fst snd] in Hstep.
  pose proof (IH st1) as Hrest.
  pose proof (processed_id_stays_silent i rest st1) as Hsilent.
  destruct (deliver rest st1) as [st2 outs] eqn:Hdel. cbn [snd dispatches_for] in *.
  destruct (carries_id i data && scheduled out) eqn:Hhit; [| lia].
  apply andb_true_iff in Hhit as [Hcarries Hout].
  destruct out as [request |]; [| discriminate].
  destruct Hstep as (turnId & _ & Hadd & Hid).
  rewrite Hsilent; [lia |].
  rewrite Hadd. rewrite (Hid i Hcarries).
  apply elem_of_union. left. now apply elem_of_singleton.
Qed.

(** C3: in every sequence of socket messages, from every state of the
    hook, the messages carrying one id make the agent schedule at most one
    request in total; and once that id is among the processed ones, the
    messages carrying it that follow schedule none. *)
Theorem repeated_turn_id_dispatched_once (i : string)
    (events later : list (Agent * MessageData)) (st : HookState) :
  (dispatches_for i events (snd (deliver events st)) <= 1)%nat
  /\ (if bool_decide (i ∈ processedTurnIds (fst (deliver events st)))
      then dispatches_for i later (snd (deliver later (fst (deliver events st)))) = 0%nat
      else dispatches_for i events (snd (deliver events st)) = 0%nat).
Proof.
  split; [apply dispatches_for_at_most_one |].
  case_bool_decide as Hseen; [now apply processed_id_stays_silent |].
  revert st Hseen. induction events as [| [agent data] rest IH]; intros st Hseen; [reflexivity |].
  cbn [deliver] in *.
  pose proof (ws_onmessage_processed agent data st) as Hstep.
  destruct (ws_onmessage agent data st) as [st1 out] eqn:Hmsg. cbn [fst snd] in Hstep.
  specialize (IH st1).
  destruct (deliver rest st1) as [st2 outs] eqn:Hdel. cbn [fst snd dispatches_for] in *.
  rewrite (IH Hseen).
  destruct out as [request |]; [| now rewrite andb_false_r].
  destruct Hstep as (turnId & _ & Hadd & Hid).
  destruct (carries_id i data) eqn:Hcarries; [| reflexivity].
  exfalso. apply Hseen.
  assert (processedTurnIds st1 ⊆ processedTurnIds st2) as Hmono.
  { pose proof (deliver_processed_grows rest st1) as Hg. now rewrite Hdel in Hg. }
  apply Hmono. rewrite Hadd. rewrite (Hid i Hcarries).
  apply elem_of_union. left. now apply elem_of_singleton.
Qed.

(** A formatted repeat of a finished turn, with the same id, adds no card. *)
Definition sample_agent : Agent :=
  {| getViewportPageBounds :=
       {| viewport_h := 800%Q; viewport_maxX := 1200%Q; viewport_minY := 0%Q |};
     getItems := [];
     Date_now := 1700000000000 |}.

Definition turn (i : string) (text : string) (formatted : bool) : MessageData :=
  Text (Some {| type := Some "Turn"; transcript := Some text;
                end_of_turn := Some true; turn_is_formatted := Some formatted;
                turn_order := Some 3; id := Some i;
                speaker := None; speaker_id := None |}).

(** The grid lane: with a viewport 800 high four cards fit a column, so
    the first card sits at the top of the lane and the sixth in the second
    row of the next column; every card gets the same box size. *)
Example placement_samples :
  let first := fst (getPlacementBounds sample_agent initial) in
  let sixth := fst (getPlacementBounds sample_agent (Nat.iter 5 next_slot initial)) in
  ((x first == 840) /\ (y first == 8) /\ (w first == 352) /\ (h first == 172))%Q
  /\ ((x sixth == 1184) /\ (y sixth == 172) /\ (w sixth == 352) /\ (h sixth == 172))%Q.
Proof. vm_compute. repeat split. Qed.

Example repeated_turn_sample :
  map scheduled
      (snd (deliver [ (sample_agent, turn "t-3" "we should vote" false);
                      (sample_agent, turn "t-3" "We should vote." true);
                      (sample_agent, turn "t-4" "agreed" false) ]
                    initial))
  = [true; false; true].
Proof. vm_compute. reflexivity. Qed.

End NotecardFacts.

(* ===================================================================== *)
(** * Properties: worker token route *)
(* ===================================================================== *)

Module WorkerFacts.

Import Worker.






(** The answers of the route on each kind of upstream behaviour. *)
Example token_route_samples :
  let env := {| ASSEMBLYAI_API_KEY := Some "key" |} in
  assemblyAiToken VUndefined {| ASSEMBLYAI_API_KEY := None |} FetchRejected
  = Returned {| status := 500; body := [("error", VStr "AssemblyAI key is not configured.")] |}
  /\ assemblyAiToken VUndefined {| ASSEMBLYAI_API_KEY := Some "" |} FetchRejected
     = Returned {| status := 500; body := [("error", VStr "AssemblyAI key is not configured.")] |}
  /\ assemblyAiToken VUndefined env (Responded true 200 "{}" (Some (VObj [])))
     = Returned {| status := 502; body := [("error", VStr "AssemblyAI token was empty.")] |}
  /\ assemblyAiToken VUndefined env
       (Responded true 200 "{}" (Some (VObj [("error", VStr "quota exceeded")])))
     = Returned {| status := 502; body := [("error", VStr "quota exceeded")] |}
  /\ assemblyAiToken VUndefined env FetchRejected = Rejected
  /\ assemblyAiToken VUndefined env (Responded true 200 "<html>" None) = Rejected.
Proof. repeat split. Qed.

End WorkerFacts.

(* ===================================================================== *)
(** * Properties: readings *)
(* ===================================================================== *)

Module ReadingFacts.

Import Storage.

(** The id, the title and the content are all non-empty. *)
Definition complete_reading (r : ReadingDocument) : bool :=
  negb (String.eqb (id r) "") && negb (String.eqb (title r) "")
  && negb (String.eqb (content r) "").

Lemma has_all_reading_value (r : ReadingDocument) :
  has_all ["id"; "title"; "content"] (reading_value r) = complete_reading r.
Proof.
  unfold has_all, complete_reading. cbn.
  now rewrite andb_true_r, andb_assoc.
Qed.

Lemma filter_reading_values (readings : list ReadingDocument) :
  List.filter (has_all ["id"; "title"; "content"]) (map reading_value readings)
  = map reading_value (List.filter complete_reading readings).
Proof.
  induction readings as [| r rest IH]; [reflexivity |].
  cbn [map List.filter]. rewrite has_all_reading_value, IH.
  now destruct (complete_reading r).
Qed.

Lemma loadReadings_after_save (localStorage : LocalStorage) (readings : list ReadingDocument) :
  loadReadings (saveReadings (Some localStorage) readings)
  = map reading_value (List.filter complete_reading readings).
Proof.
  unfold loadReadings, saveReadings.
  rewrite lookup_insert_eq. apply filter_reading_values.
Qed.

Lemma filter_keeps_everything {A : Type} (f : A -> bool) (l : list A) :
  List.length (List.filter f l) = List.length l -> forallb f l = true.
Proof.
  induction l as [| a rest IH]; [reflexivity |].
  cbn. destruct (f a); cbn.
  - intros Hlen. apply IH. lia.
  - intros Hlen. pose proof (List.filter_length_le f rest). lia.
Qed.

Lemma filter_of_all {A : Type} (f : A -> bool) (l : list A) :
  forallb f l = true -> List.filter f l = l.
Proof.
  induction l as [| a rest IH]; [reflexivity |].
  cbn. intros [Ha Hrest]%andb_true_iff. now rewrite Ha, IH.
Qed.

(** C10: loading after saving returns the saved readings whose id, title
    and content are all non-empty, in their order; it returns the whole
    list exactly when every saved reading has the three non-empty, so a
    reading with empty content is dropped by the round trip. *)
Theorem readings_round_trip (localStorage : LocalStorage) (readings : list ReadingDocument) :
  loadReadings (saveReadings (Some localStorage) readings)
  = map reading_value (List.filter complete_reading readings)
  /\ (loadReadings (saveReadings (Some localStorage) readings) = map reading_value readings
      <-> forallb complete_reading readings = true).
Proof.
  split; [apply loadReadings_after_save |].
  rewrite loadReadings_after_save. split.
  - intros Heq. apply filter_keeps_everything.
    apply (f_equal (@List.length JsValue)) in Heq.
    now rewrite !length_map in Heq.
  - intros Hall. now rewrite filter_of_all.
Qed.

Definition note_a : ReadingDocument :=
  {| id := "r1"; title := "Notes"; content := "On deliberation"; createdAt := 1700000000000 |}.

Definition blank : ReadingDocument :=
  {| id := "r2"; title := "Blank page"; content := ""; createdAt := 1700000000001 |}.

(** A reading with empty content is accepted by [saveReadings] and gone
    after [loadReadings]. *)
Example empty_content_dropped :
  loadReadings (saveReadings (Some ∅) [note_a; blank; note_a])
  = [reading_value note_a; reading_value note_a].
Proof. now rewrite loadReadings_after_save. Qed.

(** Outside a browser nothing is stored and nothing is loaded. *)
Lemma readings_without_window (readings : list ReadingDocument) :
  loadReadings (saveReadings None readings) = [].
Proof. reflexivity. Qed.

End ReadingFacts.

(* ===================================================================== *)
(** * Properties: reading truncation *)
(* ===================================================================== *)

Module TruncationFacts.

Import Storage.

Lemma slice0_length (n : nat) (s : string) :
  String.length (slice0 n s) = Nat.min n (String.length s).
Proof.
  revert s. induction n as [| n IH]; intros s; [reflexivity |].
  destruct s as [| c rest]; [reflexivity |]. cbn. now rewrite IH.
Qed.

Lemma slice0_prefix (n : nat) (s : string) :
  String.prefix (slice0 n s) s = true.
Proof.
  revert s. induction n as [| n IH]; intros s; [now destruct s |].
  destruct s as [| c rest]; [reflexivity |]. cbn.
  destruct (ascii_dec c c) as [_ | Hne]; [apply IH | now destruct Hne].
Qed.

Lemma slice0_short (n : nat) (s : string) :
  (String.length s <= n)%nat -> slice0 n s = s.
Proof.
  revert s. induction n as [| n IH]; intros s Hlen.
  - destruct s; [reflexivity | cbn in Hlen; lia].
  - destruct s as [| c rest]; [reflexivity |]. cbn in *. rewrite IH; [reflexivity | lia].
Qed.

(** What [getPart] shows of a stored reading. *)
Definition surfaced (r : ReadingDocument) : ReadingContextPartUtil.ReadingContextItem :=
  {| ReadingContextPartUtil.id := VStr (id r);
     ReadingContextPartUtil.title := VStr (title r);
     ReadingContextPartUtil.createdAt := VNum (inject_Z (createdAt r));
     ReadingContextPartUtil.content :=
       VStr (slice0 (N.to_nat ReadingContextPartUtil.MAX_READING_CHARS) (content r)) |}.

Lemma context_items_of_readings (readings : list ReadingDocument) :
  mapM ReadingContextPartUtil.context_item (map reading_value readings)
  = Some (map surfaced readings).
Proof.
  induction readings as [| r rest IH]; [reflexivity |].
  cbn [map mapM]. rewrite IH. reflexivity.
Qed.

Lemma getPart_after_save (localStorage : LocalStorage) (readings : list ReadingDocument) :
  ReadingContextPartUtil.getPart (saveReadings (Some localStorage) readings)
  = Some (map surfaced
            (rev (slice_last (N.to_nat ReadingContextPartUtil.MAX_CONTEXT_ITEMS)
                             (List.filter ReadingFacts.complete_reading readings)))).
Proof.
  unfold ReadingContextPartUtil.getPart.
  rewrite ReadingFacts.loadReadings_after_save.
  unfold slice_last. rewrite length_map, List.skipn_map, <- List.map_rev.
  apply context_items_of_readings.
Qed.

Fixpoint repeat_char (c : ascii) (n : nat) : string :=
  match n with
  | O => EmptyString
  | S n' => String c (repeat_char c n')
  end.

Definition clock (k : nat) : Z := 1700000000000 + Z.of_nat k.

(** C5, as the specification words it, fails: an input of 18,001 spaces
    is longer than 18,000 characters and its reading has empty content,
    because white space is collapsed and trimmed before the cut. *)
Lemma long_blank_input_counterexample :
  let text := repeat_char " "%char (N.to_nat 18001) in
  (18000 < str_length text)%N
  /\ content (createReadingDocument clock "0.k3j9x2mq" "blank.txt" text) = ""
  /\ str_length (content (createReadingDocument clock "0.k3j9x2mq" "blank.txt" text))
     <> 18000%N.
Proof. vm_compute. repeat split; discriminate. Qed.

(** C5 (amended): the content of a created reading is the input with its
    white space collapsed and trimmed, cut to 18,000 characters: it never
    exceeds 18,000 characters, and it has exactly 18,000 when the collapsed
    and trimmed input is longer than that (otherwise it is that text as a
    whole).  What [getPart] surfaces of the stored readings is, for each
    of the last eight that load, its first 3,500 characters: at most
    3,500 characters and a prefix of the stored content. *)
Theorem reading_content_truncation (now : nat -> Z) (random36 fileName text : string)
    (localStorage : LocalStorage) (readings : list ReadingDocument) :
  let doc := createReadingDocument now random36 fileName text in
  let normalized := trim (replace_spaces text) in
  (str_length (content doc) <= 18000)%N
  /\ String.prefix (content doc) normalized = true
  /\ (if (18000 <? str_length normalized)%N
      then str_length (content doc) = 18000%N
      else content doc = normalized)
  /\ ReadingContextPartUtil.getPart (saveReadings (Some localStorage) readings)
     = Some (map surfaced
               (rev (slice_last 8 (List.filter ReadingFacts.complete_reading readings))))
  /\ (forall r : ReadingDocument,
        exists shown : string,
          ReadingContextPartUtil.content (surfaced r) = VStr shown
          /\ (str_length shown <= 3500)%N
          /\ String.prefix shown (content r) = true).
Proof.
  intros doc normalized. subst doc. cbn [createReadingDocument content].
  fold normalized. unfold str_length, MAX_READING_CHARS.
  split; [rewrite slice0_length; lia |].
  split; [apply slice0_prefix |].
  split.
  - destruct (N.ltb_spec 18000 (N.of_nat (String.length normalized))) as [Hlong | Hshort].
    + rewrite slice0_length. lia.
    + apply slice0_short. lia.
  - split; [apply getPart_after_save |].
    intros r. eexists. split; [reflexivity |].
    unfold ReadingContextPartUtil.MAX_READING_CHARS.
    split; [rewrite slice0_length; lia | apply slice0_prefix].
Qed.

(** A long text is cut to exactly 18,000 characters, and a stored text of
    4,000 characters is shown by its first 3,500. *)
Lemma reading_content_truncation_witness :
  str_length (content (createReadingDocument clock "0.k3j9x2mq" "long.txt"
                         (repeat_char "a"%char (N.to_nat 18500)))) = 18000%N.
Proof.
  pose proof (reading_content_truncation clock "0.k3j9x2mq" "long.txt"
                (repeat_char "a"%char (N.to_nat 18500)) ∅ []) as (_ & _ & Hcut & _).
  assert ((18000 <? str_length (trim (replace_spaces (repeat_char "a"%char (N.to_nat 18500)))))%N
          = true) as Hlong by (vm_compute; reflexivity).
  rewrite Hlong in Hcut. exact Hcut.
Defined.

Example created_reading_sample :
  createReadingDocument clock "0.k3j9x2mq" "minutes.txt"
    ("  Agenda" ++ String (ascii_of_nat 10) (String (ascii_of_nat 9) "item  one  "))
  = {| id := "1700000000000-k3j9x2"; title := "minutes.txt";
       content := "Agenda item one"; createdAt := 1700000000001 |}.
Proof. vm_compute. reflexivity. Qed.

End TruncationFacts.

(* ===================================================================== *)
(** * Properties: workspace loading *)
(* ===================================================================== *)

Module WorkspaceFacts.

Import Storage.

(** The two arrays of a stored workspace the loader can use: the entry
    exists, is not empty, parses, and the parsed value is truthy with an
    array under [folders] and under [files]. *)
Definition parsed_arrays (window : Window) : option (list JsValue * list JsValue) :=
  match window with
  | Some localStorage =>
      match localStorage !! WORKSPACE_KEY with
      | Some (JsonText parsed) =>
          match truthy parsed, opt_get parsed "folders", opt_get parsed "files" with
          | true, VArr parsed_folders, VArr parsed_files => Some (parsed_folders, parsed_files)
          | _, _, _ => None
          end
      | _ => None
      end
  | None => None
  end.

Definition valid_folder : JsValue -> bool := has_all ["id"; "name"].
Definition valid_file : JsValue -> bool := has_all ["id"; "name"; "canvasKey"].

(** The state holds a folder for each default id and a file for each seed
    id. *)
Definition has_defaults (ws : WorkspaceState) : bool :=
  existsb (id_is DEFAULT_CORE_FOLDER_ID) (folders ws)
  && existsb (id_is DEFAULT_READINGS_FOLDER_ID) (folders ws)
  && existsb (id_is DEFAULT_SKETCHES_FOLDER_ID) (folders ws)
  && existsb (id_is "weekly-prep") (files ws)
  && existsb (id_is "question-space") (files ws).

(** The entry pushed when a default is missing. *)
Definition appended (present : bool) (entry : JsValue) : list JsValue :=
  if present then [] else [entry].

(** The number of clock readings after a conditional push. *)
Definition tick (present : bool) (k : nat) : nat := if present then k else S k.

Lemma push_unless_spec (now : nat -> Z) (present : bool) (make : Z -> JsValue)
    (l : list JsValue) (k : nat) :
  push_unless now present make (l, k)
  = ((l ++ appended present (make (now k)))%list, tick present k).
Proof. destruct present; cbn; [now rewrite app_nil_r | reflexivity]. Qed.

Definition zero_clock (k : nat) : Z := 0.

Definition nameless_folder : JsValue := VObj [("id", VStr "notes")].

Definition nameless_blob : Window :=
  Some {[ WORKSPACE_KEY :=
            JsonText (VObj [ ("folders", VArr [nameless_folder]); ("files", VArr []) ]) ]}.

(** C4, as the specification words it, fails: a stored workspace that
    parses and has both arrays, with a folder entry that has an id and no
    name, loads without that entry; the parsed entry is not kept. *)
Lemma nameless_folder_counterexample :
  parsed_arrays nameless_blob = Some ([nameless_folder], [])
  /\ folders (loadWorkspaceState nameless_blob zero_clock)
     = folders (createDefaultWorkspaceState zero_clock)
  /\ existsb (id_is "notes") (folders (loadWorkspaceState nameless_blob zero_clock)) = false.
Proof. vm_compute. repeat split. Qed.

(** Re-seeding of usable arrays: the entries that pass the loader's
    filter, in their order, then each default that is missing among them,
    folders before files, stamped by successive readings of the clock. *)
Definition reseeded (now : nat -> Z) (parsed_folders parsed_files : list JsValue)
  : WorkspaceState :=
  let kept_folders := List.filter valid_folder parsed_folders in
  let kept_files := List.filter valid_file parsed_files in
  let hasCore := existsb (id_is DEFAULT_CORE_FOLDER_ID) kept_folders in
  let hasReadingsFolder := existsb (id_is DEFAULT_READINGS_FOLDER_ID) kept_folders in
  let hasSketchesFolder := existsb (id_is DEFAULT_SKETCHES_FOLDER_ID) kept_folders in
  let hasWeekly := existsb (id_is "weekly-prep") kept_files in
  let hasQuestion := existsb (id_is "question-space") kept_files in
  let k1 := tick hasCore 0 in
  let k2 := tick hasReadingsFolder k1 in
  let k3 := tick hasSketchesFolder k2 in
  let k4 := tick hasWeekly k3 in
  {| folders :=
       (kept_folders
        ++ appended hasCore (folder_value (core_folder (now 0%nat)))
        ++ appended hasReadingsFolder (folder_value (readings_folder (now k1)))
        ++ appended hasSketchesFolder (folder_value (sketches_folder (now k2))))%list;
     files :=
       (kept_files
        ++ appended hasWeekly (file_value (weekly_prep_file (now k3)))
        ++ appended hasQuestion (file_value (question_space_file (now k4))))%list |}.

Lemma loadWorkspaceState_usable (window : Window) (now : nat -> Z)
    (parsed_folders parsed_files : list JsValue) :
  parsed_arrays window = Some (parsed_folders, parsed_files) ->
  loadWorkspaceState window now = reseeded now parsed_folders parsed_files.
Proof.
  unfold parsed_arrays, loadWorkspaceState, reseeded.
  destruct window as [localStorage |]; [| discriminate].
  destruct (localStorage !! WORKSPACE_KEY) as [[| | parsed] |]; try discriminate.
  destruct (truthy parsed); [| discriminate].
  destruct (opt_get parsed "folders") as [| | | | | pf | |]; try discriminate.
  destruct (opt_get parsed "files") as [| | | | | pfi | |]; try discriminate.
  intros [= -> ->]. cbv zeta.
  repeat (rewrite push_unless_spec; cbn [fst snd]).
  now rewrite <- !app_assoc.
Qed.

Lemma loadWorkspaceState_unusable (window : Window) (now : nat -> Z) :
  parsed_arrays window = None ->
  loadWorkspaceState window now = createDefaultWorkspaceState now.
Proof.
  unfold parsed_arrays, loadWorkspaceState.
  destruct window as [localStorage |]; [| reflexivity].
  destruct (localStorage !! WORKSPACE_KEY) as [[| | parsed] |]; try reflexivity.
  destruct (truthy parsed); [| reflexivity].
  destruct (opt_get parsed "folders") as [| | | | | pf | |]; try reflexivity.
  destruct (opt_get parsed "files") as [| | | | | pfi | |]; try reflexivity.
  discriminate.
Qed.

Lemma forallb_filter {A : Type} (f : A -> bool) (l : list A) :
  forallb f (List.filter f l) = true.
Proof.
  induction l as [| a rest IH]; [reflexivity |].
  cbn. destruct (f a) eqn:Ha; [cbn; now rewrite Ha | exact IH].
Qed.

Lemma reseeded_has_defaults (now : nat -> Z) (parsed_folders parsed_files : list JsValue) :
  has_defaults (reseeded now parsed_folders parsed_files) = true.
Proof.
  unfold has_defaults, reseeded. cbv zeta. cbn [folders files].
  rewrite !existsb_app.
  destruct (existsb (id_is DEFAULT_CORE_FOLDER_ID) (List.filter valid_folder parsed_folders));
    destruct (existsb (id_is DEFAULT_READINGS_FOLDER_ID) (List.filter valid_folder parsed_folders));
    destruct (existsb (id_is DEFAULT_SKETCHES_FOLDER_ID) (List.filter valid_folder parsed_folders));
    destruct (existsb (id_is "weekly-prep") (List.filter valid_file parsed_files));
    destruct (existsb (id_is "question-space") (List.filter valid_file parsed_files));
    reflexivity.
Qed.

Lemma reseeded_valid (now : nat -> Z) (parsed_folders parsed_files : list JsValue) :
  forallb valid_folder (folders (reseeded now parsed_folders parsed_files)) = true
  /\ forallb valid_file (files (reseeded now parsed_folders parsed_files)) = true.
Proof.
  unfold reseeded. cbv zeta. cbn [folders files].
  rewrite !forallb_app, !forallb_filter.
  split.
  - destruct (existsb (id_is DEFAULT_CORE_FOLDER_ID) (List.filter valid_folder parsed_folders));
      destruct (existsb (id_is DEFAULT_READINGS_FOLDER_ID) (List.filter valid_folder parsed_folders));
      destruct (existsb (id_is DEFAULT_SKETCHES_FOLDER_ID) (List.filter valid_folder parsed_folders));
      reflexivity.
  - destruct (existsb (id_is "weekly-prep") (List.filter valid_file parsed_files));
      destruct (existsb (id_is "question-space") (List.filter valid_file parsed_files));
      reflexivity.
Qed.

(** A state whose entries pass the filter and which has the defaults
    loads back as it was saved, whatever the clock shows by then. *)
Lemma load_saved_state (localStorage : LocalStorage) (ws : WorkspaceState) (now : nat -> Z) :
  forallb valid_folder (folders ws) = true ->
  forallb valid_file (files ws) = true ->
  has_defaults ws = true ->
  loadWorkspaceState (saveWorkspaceState (Some localStorage) ws) now = ws.
Proof.
  intros Hfolders Hfiles Hdefaults.
  unfold has_defaults in Hdefaults.
  repeat (apply andb_true_iff in Hdefaults as [Hdefaults ?]).
  unfold loadWorkspaceState, saveWorkspaceState.
  rewrite lookup_insert_eq. cbn [workspace_value truthy opt_get obj_get String.eqb default].
  cbn -[List.filter existsb push_unless has_all id_is].
  fold valid_folder valid_file.
  rewrite (ReadingFacts.filter_of_all _ _ Hfolders), (ReadingFacts.filter_of_all _ _ Hfiles).
  repeat match goal with H : existsb _ _ = true |- _ => rewrite H; clear H end.
  cbn. now destruct ws.
Qed.

(** C4 (amended): every load returns a state with a folder for each of
    the three default ids and a file for each of the two seed ids.  When
    the stored entry is absent, empty, unparseable, or not an object with
    arrays [folders] and [files], the result is exactly the default tree.
    Otherwise it is the parsed entries that have a truthy id and name (and
    canvasKey, for a file), in their order, followed by the defaults
    missing among them.  Saving a loaded state and loading again returns
    the same state: re-seeding is idempotent. *)
Theorem workspace_load_reseeds (window : Window) (now later : nat -> Z)
    (localStorage : LocalStorage) :
  let loaded := loadWorkspaceState window now in
  has_defaults loaded = true
  /\ match parsed_arrays window with
     | None => loaded = createDefaultWorkspaceState now
     | Some (parsed_folders, parsed_files) => loaded = reseeded now parsed_folders parsed_files
     end
  /\ loadWorkspaceState (saveWorkspaceState (Some localStorage) loaded) later = loaded.
Proof.
  intros loaded. subst loaded.
  destruct (parsed_arrays window) as [[parsed_folders parsed_files] |] eqn:Hparsed.
  - rewrite (loadWorkspaceState_usable _ _ _ _ Hparsed).
    destruct (reseeded_valid now parsed_folders parsed_files) as [Hfolders Hfiles].
    pose proof (reseeded_has_defaults now parsed_folders parsed_files) as Hdefaults.
    split; [exact Hdefaults |]. split; [reflexivity |].
    now apply load_saved_state.
  - rewrite (loadWorkspaceState_unusable _ _ Hparsed).
    split; [reflexivity |]. split; [reflexivity |].
    now apply load_saved_state.
Qed.

(** Stored states of each kind and what they load as. *)
Example workspace_load_samples :
  let custom := VObj [("id", VStr "notes"); ("name", VStr "Notes")] in
  let core := VObj [("id", VStr "core-workspaces"); ("name", VStr "Mine")] in
  loadWorkspaceState None zero_clock = createDefaultWorkspaceState zero_clock
  /\ loadWorkspaceState (Some ∅) zero_clock = createDefaultWorkspaceState zero_clock
  /\ loadWorkspaceState (Some {[ WORKSPACE_KEY := Malformed ]}) zero_clock
     = createDefaultWorkspaceState zero_clock
  /\ loadWorkspaceState (Some {[ WORKSPACE_KEY := JsonText (VObj [("folders", VArr [])]) ]})
       zero_clock
     = createDefaultWorkspaceState zero_clock
  /\ folders (loadWorkspaceState
                (Some {[ WORKSPACE_KEY :=
                           JsonText (VObj [ ("folders", VArr [custom; VNull; core]);
                                            ("files", VArr []) ]) ]})
                zero_clock)
     = [ custom; core;
         folder_value (readings_folder 0); folder_value (sketches_folder 0) ].
Proof. vm_compute. repeat split. Qed.

End WorkspaceFacts.

(* ===================================================================== *)
(** * Further properties: objects and shape metadata *)
(* ===================================================================== *)

Module ObjectFacts.

(** Reading a key after a property write. *)
Lemma obj_get_set (key key' : string) (v : JsValue) (fields : JsObject) :
  obj_get key (obj_set key' v fields)
  = if String.eqb key' key then Some v else obj_get key fields.
Proof.
  induction fields as [| [k old] rest IH]; cbn.
  - destruct (String.eqb key' key); reflexivity.
  - destruct (String.eqb k key') eqn:Hk; cbn.
    + apply String.eqb_eq in Hk. subst k.
      destruct (String.eqb key' key); reflexivity.
    + rewrite IH. destruct (String.eqb k key) eqn:Hkk; [| reflexivity].
      apply String.eqb_eq in Hkk. subst k. now rewrite String.eqb_sym, Hk.
Qed.

Lemma obj_has_set (key key' : string) (v : JsValue) (fields : JsObject) :
  obj_has key (obj_set key' v fields) = String.eqb key' key || obj_has key fields.
Proof.
  unfold obj_has. rewrite obj_get_set. now destruct (String.eqb key' key).
Qed.

(** Writing an existing key keeps the keys and their order. *)
Lemma obj_set_keys (key : string) (v : JsValue) (fields : JsObject) :
  obj_has key fields = true -> map fst (obj_set key v fields) = map fst fields.
Proof.
  unfold obj_has.
  induction fields as [| [k old] rest IH]; cbn; [discriminate |].
  destruct (String.eqb k key); cbn; [reflexivity |].
  intros Hrest. now rewrite IH.
Qed.




End ObjectFacts.

Module MetaFacts.

Import ShapeMeta ObjectFacts.

(** No key occurs twice. *)
Fixpoint distinct_keys (fields : JsObject) : bool :=
  match fields with
  | [] => true
  | (k, _) :: rest => negb (obj_has k rest) && distinct_keys rest
  end.

(** A JSON value all of whose objects, at every depth, bind each key
    once: what [JSON.parse] produces. *)
Fixpoint canonical (v : JsValue) : bool :=
  match v with
  | VUndefined | VOther _ => false
  | VNull | VBool _ | VNum _ | VStr _ => true
  | VArr items => forallb canonical items
  | VObj fields => distinct_keys fields && forallb (fun kv => canonical (snd kv)) fields
  end.

Lemma obj_set_distinct (key : string) (v : JsValue) (fields : JsObject) :
  distinct_keys fields = true -> distinct_keys (obj_set key v fields) = true.
Proof.
  induction fields as [| [k old] rest IH]; cbn; [reflexivity |].
  intros [Hk Hrest]%andb_true_iff.
  destruct (String.eqb k key) eqn:Hkk; cbn.
  - now rewrite Hk, Hrest.
  - rewrite obj_has_set, String.eqb_sym, Hkk. cbn. now rewrite Hk, IH.
Qed.

Lemma copy_entries_distinct (convert : JsValue -> JsValue) (entries result : JsObject) :
  distinct_keys result = true ->
  distinct_keys (copy_entries convert entries result) = true.
Proof.
  revert result. induction entries as [| [key item] rest IH]; intros result Hres; cbn.
  - exact Hres.
  - destruct (is_undefined item); [now apply IH |].
    apply IH. now apply obj_set_distinct.
Qed.

Lemma toSerializableJsonValue_canonical (value : JsValue) :
  canonical (toSerializableJsonValue value) = true.
Proof.
  induction value as [| | b | n | s | items IH | fields IH | repr] using JsValue_ind;
    try reflexivity.
  - cbn. induction IH as [| item rest Hitem _ IHrest]; cbn; [reflexivity |].
    now rewrite Hitem, IHrest.
  - cbn. apply andb_true_iff. split.
    + now apply copy_entries_distinct.
    + apply (ShapeMetaFacts.copy_entries_all_values canonical); [exact IH | reflexivity].
Qed.





End MetaFacts.

Module StyleFacts.

Import ShapeMeta ObjectFacts MetaFacts.




Lemma sanitizeShapeMeta_object (meta : JsValue) :
  exists fields : JsObject,
    sanitizeShapeMeta meta = VObj fields /\ canonical (VObj fields) = true.
Proof.
  unfold sanitizeShapeMeta. destruct (isPlainObject meta) eqn:Hplain; cbn [negb].
  - destruct meta; try discriminate. eexists. split; [reflexivity |].
    apply (toSerializableJsonValue_canonical (VObj fields)).
  - now exists [].
Qed.


(** The metadata after a style is applied: the sanitized old metadata
    with the three author fields written over it. *)
Lemma stamped_meta (old : JsObject) (src author : string) (now : Z) (key : string) :
  let meta := spread old [ ("source", VStr src); ("author", VStr author);
                           ("timestamp", VNum (inject_Z now)) ] in
  obj_get "source" meta = Some (VStr src)
  /\ obj_get "author" meta = Some (VStr author)
  /\ obj_get "timestamp" meta = Some (VNum (inject_Z now))
  /\ (key <> "source" -> key <> "author" -> key <> "timestamp" ->
      obj_get key meta = obj_get key old)
  /\ (canonical (VObj old) = true -> canonical (VObj meta) = true).
Proof.
  cbn [spread fold_left fst snd].
  repeat split.
  - now rewrite !obj_get_set.
  - now rewrite !obj_get_set.
  - now rewrite !obj_get_set.
  - intros Hs Ha Ht. rewrite !obj_get_set.
    apply String.eqb_neq in Hs, Ha, Ht.
    now rewrite (String.eqb_sym "timestamp"), Ht, (String.eqb_sym "author"), Ha,
      (String.eqb_sym "source"), Hs.
  - cbn [canonical]. intros [Hdistinct Hvalues]%andb_true_iff.
    apply andb_true_iff. split.
    + now repeat apply obj_set_distinct.
    + repeat apply (ShapeMetaFacts.obj_set_all_values canonical); easy.
Qed.

(** X3: whatever metadata a shape carried, after [applyAiStyle] its
    metadata names the agent as author ([source] ai, [author]
    Deliberatorium Agent, [timestamp] the current time), keeps every other
    key of the sanitized old metadata, and is canonical JSON; the id, type
    and position of the shape are untouched. *)
Theorem applyAiStyle_marks_agent (now : Z) (shape : TLShape) (key : string) :
  let styled := applyAiStyle now shape in
  exists meta : JsObject,
    shape_meta styled = VObj meta
    /\ obj_get "source" meta = Some (VStr "ai")
    /\ obj_get "author" meta = Some (VStr "Deliberatorium Agent")
    /\ obj_get "timestamp" meta = Some (VNum (inject_Z now))
    /\ (key <> "source" -> key <> "author" -> key <> "timestamp" ->
        obj_get key meta = obj_get key (own_fields (sanitizeShapeMeta (shape_meta shape))))
    /\ canonical (VObj meta) = true
    /\ shape_id styled = shape_id shape /\ shape_type styled = shape_type shape
    /\ shape_x styled = shape_x shape /\ shape_y styled = shape_y shape.
Proof.
  intros styled. subst styled. cbn [applyAiStyle shape_meta shape_id shape_type shape_x shape_y].
  eexists. split; [reflexivity |].
  destruct (sanitizeShapeMeta_object (shape_meta shape)) as (old & Hold & Hcanonical).
  rewrite Hold. cbn [own_fields].
  destruct (stamped_meta old "ai" "Deliberatorium Agent" now key) as (Hs & Ha & Ht & Hk & Hc).
  unfold createAiMeta. repeat split; auto.
Qed.

(** A property write made only when the key is there. *)
Lemma guarded_set_get (guard : bool) (key key' : string) (v : JsValue) (props : JsObject) :
  obj_get key' (if guard then obj_set key v props else props)
  = if guard && String.eqb key key' then Some v else obj_get key' props.
Proof. destruct guard; [apply obj_get_set | reflexivity]. Qed.

Lemma guarded_set_keys (guard : bool) (key : string) (v : JsValue) (props : JsObject) :
  (guard = true -> obj_has key props = true) ->
  map fst (if guard then obj_set key v props else props) = map fst props.
Proof. destruct guard; [intros H; now apply obj_set_keys, H | reflexivity]. Qed.

Lemma guarded_set_has (guard : bool) (key key' : string) (v : JsValue) (props : JsObject) :
  (guard = true -> obj_has key props = true) ->
  obj_has key' (if guard then obj_set key v props else props) = obj_has key' props.
Proof.
  destruct guard; [| reflexivity]. intros H. rewrite obj_has_set.
  destruct (String.eqb key key') eqn:Hk; [| reflexivity].
  apply String.eqb_eq in Hk. subst key'. now rewrite H.
Qed.


(** X4: [applyAiStyle] adds and removes no property: the keys of [props]
    stay as they are, in order.  A shape that has a [color] gets yellow; a
    geo or note shape that has a [fill] gets a solid fill, any other shape
    keeps its fill; every other property keeps its value. *)
Theorem applyAiStyle_props (now : Z) (shape : TLShape) (key : string) :
  let props := shape_props shape in
  let styled := shape_props (applyAiStyle now shape) in
  map fst styled = map fst props
  /\ obj_get "color" styled = (if obj_has "color" props then Some (VStr "yellow") else None)
  /\ obj_get "fill" styled
     = (if obj_has "fill" props
           && (String.eqb (shape_type shape) "geo" || String.eqb (shape_type shape) "note")
        then Some (VStr "solid") else obj_get "fill" props)
  /\ (key <> "color" -> key <> "fill" -> obj_get key styled = obj_get key props).
Proof.
  intros props styled. subst props styled. cbn [applyAiStyle shape_props].
  set (props := shape_props shape).
  set (solid := String.eqb (shape_type shape) "geo" || String.eqb (shape_type shape) "note").
  rewrite (guarded_set_has (obj_has "color" props) "color" "fill") by auto.
  repeat split.
  - rewrite guarded_set_keys.
    + now apply guarded_set_keys.
    + intros [Hfill _]%andb_true_iff.
      now rewrite (guarded_set_has (obj_has "color" props) "color" "fill").
  - rewrite !guarded_set_get. change (String.eqb "fill" "color") with false.
    rewrite andb_false_r, String.eqb_refl, andb_true_r.
    unfold obj_has. now destruct (obj_get "color" props).
  - rewrite !guarded_set_get. change (String.eqb "color" "fill") with false.
    now rewrite andb_false_r, String.eqb_refl, andb_true_r.
  - intros Hc Hf. apply String.eqb_neq in Hc, Hf.
    rewrite !guarded_set_get, (String.eqb_sym "fill"), Hf, (String.eqb_sym "color"), Hc.
    now rewrite !andb_false_r.
Qed.

(** X5: after [applyHumanStyle] the metadata names the given person as
    author ([source] human), keeping every other key of the sanitized old
    metadata; a shape that has a [color] gets the person's color, and no
    other property changes, appears or disappears. *)
Theorem applyHumanStyle_marks_person (now : Z) (shape : TLShape) (color author key : string) :
  let styled := applyHumanStyle now shape color author in
  exists meta : JsObject,
    shape_meta styled = VObj meta
    /\ obj_get "source" meta = Some (VStr "human")
    /\ obj_get "author" meta = Some (VStr author)
    /\ obj_get "timestamp" meta = Some (VNum (inject_Z now))
    /\ (key <> "source" -> key <> "author" -> key <> "timestamp" ->
        obj_get key meta = obj_get key (own_fields (sanitizeShapeMeta (shape_meta shape))))
    /\ map fst (shape_props styled) = map fst (shape_props shape)
    /\ obj_get "color" (shape_props styled)
       = (if obj_has "color" (shape_props shape) then Some (VStr color) else None)
    /\ (key <> "color" -> obj_get key (shape_props styled) = obj_get key (shape_props shape)).
Proof.
  intros styled. subst styled. cbn [applyHumanStyle shape_meta shape_props].
  eexists. split; [reflexivity |].
  destruct (sanitizeShapeMeta_object (shape_meta shape)) as (old & Hold & Hcanonical).
  rewrite Hold. cbn [own_fields].
  destruct (stamped_meta old "human" author now key) as (Hs & Ha & Ht & Hk & _).
  unfold createHumanMeta.
  split; [exact Hs |]. split; [exact Ha |]. split; [exact Ht |]. split; [exact Hk |].
  split; [now apply guarded_set_keys |].
  split.
  - rewrite guarded_set_get, String.eqb_refl, andb_true_r.
    unfold obj_has. now destruct (obj_get "color" (shape_props shape)).
  - intros Hc. apply String.eqb_neq in Hc.
    now rewrite guarded_set_get, (String.eqb_sym "color"), Hc, andb_false_r.
Qed.


End StyleFacts.

(* ===================================================================== *)
(** * Further properties: action utils *)
(* ===================================================================== *)

Module ActionFacts.

Import ShapeMeta Agent.

(** X7: the sanitize-then-apply pipeline of a concept node.  An incomplete
    action creates nothing.  A complete one creates exactly one yellow,
    solid rectangle whose width and height are numbers of at least 180
    and 100 and whose position is numeric, the origin when no usable
    coordinate was proposed; its metadata marks it as a concept node
    authored by the agent. *)
Theorem concept_node_pipeline (rt : Runtime)
    (action : CreateConceptNodeActionUtil.CreateConceptNodeAction) (helpers : AgentHelpers) :
  let clean := CreateConceptNodeActionUtil.sanitizeAction action helpers in
  if CreateConceptNodeActionUtil.complete action
  then exists (shape : TLShape) (qw qh qx qy : Q) (meta : JsObject),
         CreateConceptNodeActionUtil.applyAction rt clean = [CreateShape shape]
         /\ shape_type shape = "geo"
         /\ shape_id shape = shape_id_for rt (CreateConceptNodeActionUtil.shapeId clean)
         /\ shape_x shape = VNum qx /\ shape_y shape = VNum qy
         /\ (ensureValueIsNumber helpers (CreateConceptNodeActionUtil.x action) = None -> qx = 0%Q)
         /\ (ensureValueIsNumber helpers (CreateConceptNodeActionUtil.y action) = None -> qy = 0%Q)
         /\ obj_get "w" (shape_props shape) = Some (VNum qw) /\ (180 <= qw)%Q
         /\ obj_get "h" (shape_props shape) = Some (VNum qh) /\ (100 <= qh)%Q
         /\ obj_get "geo" (shape_props shape) = Some (VStr "rectangle")
         /\ obj_get "color" (shape_props shape) = Some (VStr "yellow")
         /\ obj_get "fill" (shape_props shape) = Some (VStr "solid")
         /\ shape_meta shape = VObj meta
         /\ obj_get "kind" meta = Some (VStr "concept-node")
         /\ obj_get "source" meta = Some (VStr "ai")
  else CreateConceptNodeActionUtil.applyAction rt clean = [].
Proof.
  intros clean. subst clean.
  unfold CreateConceptNodeActionUtil.applyAction, CreateConceptNodeActionUtil.sanitizeAction.
  cbn [CreateConceptNodeActionUtil.complete CreateConceptNodeActionUtil.shapeId
       CreateConceptNodeActionUtil.w CreateConceptNodeActionUtil.h
       CreateConceptNodeActionUtil.x CreateConceptNodeActionUtil.y
       CreateConceptNodeActionUtil.note CreateConceptNodeActionUtil.intent
       CreateConceptNodeActionUtil.label].
  destruct (CreateConceptNodeActionUtil.complete action); cbn [negb]; [| reflexivity].
  eexists _, _, _, _, _, _.
  split; [reflexivity |]. split; [reflexivity |]. split; [reflexivity |].
  split; [reflexivity |]. split; [reflexivity |].
  split; [now intros -> |]. split; [now intros -> |].
  split; [reflexivity |]. split; [apply Q.le_max_l |].
  split; [reflexivity |]. split; [apply Q.le_max_l |].
  split; [reflexivity |]. split; [reflexivity |]. split; [reflexivity |].
  split; [reflexivity |].
  destruct (CreateConceptNodeActionUtil.note action), (CreateConceptNodeActionUtil.intent action);
    split; reflexivity.
Qed.

(** X8: the note kept in a concept node's metadata is the action's note
    when it has one, else its intent, else the metadata has no note key
    at all. *)
Theorem concept_node_note (rt : Runtime)
    (action : CreateConceptNodeActionUtil.CreateConceptNodeAction) :
  CreateConceptNodeActionUtil.complete action = true ->
  exists (shape : TLShape) (meta : JsObject),
    CreateConceptNodeActionUtil.applyAction rt action = [CreateShape shape]
    /\ shape_meta shape = VObj meta
    /\ obj_get "note" meta
       = match CreateConceptNodeActionUtil.note action,
               CreateConceptNodeActionUtil.intent action with
         | Some n, _ => Some (VStr n)
         | None, Some i => Some (VStr i)
         | None, None => None
         end.
Proof.
  intros Hdone. unfold CreateConceptNodeActionUtil.applyAction. rewrite Hdone. cbn [negb].
  destruct (CreateConceptNodeActionUtil.note action), (CreateConceptNodeActionUtil.intent action);
    eexists _, _; (split; [reflexivity |]); split; reflexivity.
Qed.

Lemma concept_node_note_witness :
  exists (shape : TLShape) (meta : JsObject),
    CreateConceptNodeActionUtil.applyAction EdgeFacts.runtime
      (ConceptNodeFacts.proposal (VNum 200) (VNum 150)) = [CreateShape shape]
    /\ shape_meta shape = VObj meta
    /\ obj_get "note" meta = None.
Proof.
  exact (concept_node_note EdgeFacts.runtime (ConceptNodeFacts.proposal (VNum 200) (VNum 150))
           eq_refl).
Defined.

(** The position and the two endpoint offsets of the arrow an edge action
    creates, when it creates one. *)
Definition arrow_geometry (calls : list EditorCall) : option (Q * Q * (Q * Q) * (Q * Q)) :=
  match calls with
  | [CreateShape shape] =>
      match shape_x shape, shape_y shape,
            obj_get "start" (shape_props shape), obj_get "end" (shape_props shape) with
      | VNum x, VNum y,
        Some (VObj [("x", VNum sx); ("y", VNum sy)]),
        Some (VObj [("x", VNum ex); ("y", VNum ey)]) => Some (x, y, (sx, sy), (ex, ey))
      | _, _, _, _ => None
      end
  | _ => None
  end.

Definition reversed (action : CreateRelationshipEdgeActionUtil.CreateRelationshipEdgeAction)
  : CreateRelationshipEdgeActionUtil.CreateRelationshipEdgeAction :=
  {| CreateRelationshipEdgeActionUtil.fromShapeId :=
       CreateRelationshipEdgeActionUtil.toShapeId action;
     CreateRelationshipEdgeActionUtil.toShapeId :=
       CreateRelationshipEdgeActionUtil.fromShapeId action;
     CreateRelationshipEdgeActionUtil.shapeId := CreateRelationshipEdgeActionUtil.shapeId action;
     CreateRelationshipEdgeActionUtil.bend := CreateRelationshipEdgeActionUtil.bend action;
     CreateRelationshipEdgeActionUtil.label := CreateRelationshipEdgeActionUtil.label action;
     CreateRelationshipEdgeActionUtil.intent := CreateRelationshipEdgeActionUtil.intent action;
     CreateRelationshipEdgeActionUtil.complete :=
       CreateRelationshipEdgeActionUtil.complete action |}.

(** X9: reversing an edge swaps the arrow's endpoints and nothing else of
    its geometry: the reversed action creates an arrow exactly when the
    original does, at the same position, with the start and end offsets
    exchanged. *)
Theorem reversed_edge_geometry (editor : Editor) (rt : Runtime)
    (action : CreateRelationshipEdgeActionUtil.CreateRelationshipEdgeAction) :
  match arrow_geometry (CreateRelationshipEdgeActionUtil.applyAction editor rt action),
        arrow_geometry (CreateRelationshipEdgeActionUtil.applyAction editor rt (reversed action))
  with
  | Some (x, y, (sx, sy), (ex, ey)), Some (x', y', (sx', sy'), (ex', ey')) =>
      (x' == x /\ y' == y /\ sx' == ex /\ sy' == ey /\ ex' == sx /\ ey' == sy)%Q
  | None, None =>
      CreateRelationshipEdgeActionUtil.applyAction editor rt action = []
      /\ CreateRelationshipEdgeActionUtil.applyAction editor rt (reversed action) = []
  | _, _ => False
  end.
Proof.
  unfold CreateRelationshipEdgeActionUtil.applyAction, reversed.
  cbn [CreateRelationshipEdgeActionUtil.complete CreateRelationshipEdgeActionUtil.fromShapeId
       CreateRelationshipEdgeActionUtil.toShapeId].
  destruct (CreateRelationshipEdgeActionUtil.complete action); cbn [negb]; [| now split].
  destruct (getShape editor ("shape:" ++ ref_text (CreateRelationshipEdgeActionUtil.fromShapeId action)))
    as [fromShape |];
    destruct (getShape editor ("shape:" ++ ref_text (CreateRelationshipEdgeActionUtil.toShapeId action)))
      as [toShape |]; try (now split).
  destruct (getShapePageBounds editor fromShape) as [fromBounds |];
    destruct (getShapePageBounds editor toShape) as [toBounds |]; try (now split).
  cbn.
  pose proof (Q.min_comm (vec_x (center fromBounds)) (vec_x (center toBounds))) as Hx.
  pose proof (Q.min_comm (vec_y (center fromBounds)) (vec_y (center toBounds))) as Hy.
  repeat split; try (now symmetry); rewrite ?Hx, ?Hy; reflexivity.
Qed.

End ActionFacts.

(* ===================================================================== *)
(** * Workspace storage, continued: the profile and the created entries *)
(* ===================================================================== *)

Module StorageEntries.

Import Storage.

Definition PROFILE_KEY := "deliberatorium.profile.v1".

Inductive DeliberatoriumColor : Type :=
| yellow | blue | green | red | violet | orange.

Definition color_text (c : DeliberatoriumColor) : string :=
  match c with
  | yellow => "yellow" | blue => "blue" | green => "green"
  | red => "red" | violet => "violet" | orange => "orange"
  end.

Record DeliberatoriumProfile := {
  name : string;
  color : DeliberatoriumColor
}.

Definition profile_value (p : DeliberatoriumProfile) : JsValue :=
  VObj [ ("name", VStr (name p)); ("color", VStr (color_text (color p))) ].

(** The stored profile as parsed, or null ([None]). *)
Definition loadProfile (window : Window) : option JsValue :=
  match window with
  | None => None
  | Some localStorage =>
      match localStorage !! PROFILE_KEY with
      | None | Some EmptyText => None
      | Some Malformed => None
      | Some (JsonText parsed) =>
          if negb (truthy (opt_get parsed "name")) || negb (truthy (opt_get parsed "color"))
          then None else Some parsed
      end
  end.

Definition saveProfile (window : Window) (profile : DeliberatoriumProfile) : Window :=
  match window with
  | None => None
  | Some localStorage =>
      Some (<[PROFILE_KEY := JsonText (profile_value profile)]> localStorage)
  end.

(** [createId(prefix)], given what [Date.now()] and
    [Math.random().toString(36)] return. *)
Definition createId (now : Z) (random36 : string) (prefix : string) : string :=
  prefix ++ "-" ++ Z_to_string now ++ "-" ++ slice 2 8 random36.

Definition createWorkspaceFolder (now : nat -> Z) (random36 : string)
    (name : string) (parentId : option string) : WorkspaceFolder :=
  {| folder_id := createId (now 0%nat) random36 "folder";
     folder_name := trim name;
     folder_parentId := parentId;
     folder_createdAt := now 1%nat |}.

Definition createCanvasWorkspaceFile (now : nat -> Z) (random36 : string)
    (name : string) (parentId : option string) : WorkspaceFile :=
  let id := createId (now 0%nat) random36 "canvas" in
  {| file_id := id;
     file_name := trim name;
     file_parentId := parentId;
     file_type := canvas;
     file_createdAt := now 1%nat;
     file_canvasKey := "deliberatorium-canvas-" ++ id;
     file_readingId := None |}.

Definition createReadingWorkspaceFile (reading : ReadingDocument) (parentId : option string)
  : WorkspaceFile :=
  {| file_id := "reading-" ++ id reading;
     file_name := title reading;
     file_parentId := parentId;
     file_type := Storage.reading;
     file_createdAt := createdAt reading;
     file_canvasKey := "deliberatorium-sketch-" ++ id reading;
     file_readingId := Some (id reading) |}.

End StorageEntries.

(* ===================================================================== *)
(** * Further properties: storage *)
(* ===================================================================== *)

Module StorageFacts.

Import Storage StorageEntries.

(** Every character is white space. *)
Fixpoint all_space (s : string) : bool :=
  match s with
  | EmptyString => true
  | String c rest => is_space c && all_space rest
  end.

Definition is_empty (s : string) : bool := String.eqb s "".

Lemma trimStart_empty (s : string) : is_empty (trimStart s) = all_space s.
Proof.
  induction s as [| c rest IH]; [reflexivity |].
  cbn. destruct (is_space c); [exact IH | reflexivity].
Qed.

Lemma trimEnd_empty (s : string) : is_empty (trimEnd s) = all_space s.
Proof.
  induction s as [| c rest IH]; [reflexivity |].
  cbn. destruct (trimEnd rest) as [| c' kept] eqn:Hrest; cbn in *.
  - rewrite <- IH. now destruct (is_space c).
  - rewrite <- IH. now rewrite andb_false_r.
Qed.

Lemma trimStart_all_space (s : string) : all_space (trimStart s) = all_space s.
Proof.
  induction s as [| c rest IH]; [reflexivity |].
  cbn. destruct (is_space c) eqn:Hc; [exact IH |]. cbn. now rewrite Hc.
Qed.

Lemma collapse_all_space (in_run : bool) (s : string) :
  all_space (collapse_from in_run s) = all_space s.
Proof.
  revert in_run. induction s as [| c rest IH]; intros in_run; [reflexivity |].
  cbn. destruct (is_space c) eqn:Hc.
  - destruct in_run; cbn; now rewrite IH.
  - cbn. now rewrite Hc.
Qed.

(** [!text.trim()] is true exactly on a text of white space only. *)
Lemma trim_empty (s : string) : is_empty (trim s) = all_space s.
Proof. unfold trim. now rewrite trimEnd_empty, trimStart_all_space. Qed.

Lemma slice0_empty (n : nat) (s : string) :
  is_empty (slice0 (S n) s) = is_empty s.
Proof. now destruct s. Qed.

Lemma normalized_empty (text : string) :
  is_empty (slice0 (N.to_nat MAX_READING_CHARS) (trim (replace_spaces text))) = all_space text.
Proof.
  change (N.to_nat MAX_READING_CHARS) with (S (N.to_nat 17999)).
  rewrite slice0_empty, trim_empty. apply collapse_all_space.
Qed.

(** X10: a created reading has empty content exactly when the input text
    is white space only (the empty text included); any other input gives
    a reading with non-empty content. *)
Theorem reading_content_empty_iff_blank (now : nat -> Z) (random36 fileName text : string) :
  is_empty (content (createReadingDocument now random36 fileName text)) = all_space text.
Proof. cbn [createReadingDocument content]. apply normalized_empty. Qed.

(** White space in the text is single spaces only, never two in a row;
    with [after_space] the text may not begin with one either. *)
Fixpoint single_spaced (after_space : bool) (s : string) : bool :=
  match s with
  | EmptyString => true
  | String c rest =>
      if is_space c
      then Ascii.eqb c " "%char && negb after_space && single_spaced true rest
      else single_spaced false rest
  end.

Lemma collapse_single_spaced (in_run : bool) (s : string) :
  single_spaced in_run (collapse_from in_run s) = true.
Proof.
  revert in_run. induction s as [| c rest IH]; intros in_run; [reflexivity |].
  cbn. destruct (is_space c) eqn:Hc.
  - destruct in_run; [apply IH |]. cbn. apply IH.
  - cbn. rewrite Hc. apply IH.
Qed.

Lemma trimStart_single_spaced (after_space : bool) (s : string) :
  single_spaced after_space s = true -> single_spaced true (trimStart s) = true.
Proof.
  revert after_space. induction s as [| c rest IH]; intros after_space; [reflexivity |].
  cbn. destruct (is_space c) eqn:Hc.
  - intros [_ Hrest]%andb_true_iff. now apply (IH true).
  - cbn. now rewrite Hc.
Qed.

Lemma trimEnd_single_spaced (after_space : bool) (s : string) :
  single_spaced after_space s = true -> single_spaced after_space (trimEnd s) = true.
Proof.
  revert after_space. induction s as [| c rest IH]; intros after_space; [reflexivity |].
  cbn. destruct (is_space c) eqn:Hc.
  - intros [Hhead Hrest]%andb_true_iff. specialize (IH true Hrest).
    destruct (trimEnd rest) as [| c' kept]; [reflexivity |].
    cbn [single_spaced]. rewrite Hc, Hhead. exact IH.
  - intros Hrest. specialize (IH false Hrest).
    destruct (trimEnd rest) as [| c' kept]; cbn [single_spaced]; rewrite Hc; [reflexivity | exact IH].
Qed.

Lemma slice0_single_spaced (n : nat) (after_space : bool) (s : string) :
  single_spaced after_space s = true -> single_spaced after_space (slice0 n s) = true.
Proof.
  revert after_space s. induction n as [| n IH]; intros after_space s; [reflexivity |].
  destruct s as [| c rest]; [reflexivity |]. cbn.
  destruct (is_space c).
  - intros [Hhead Hrest]%andb_true_iff. now rewrite Hhead, IH.
  - apply IH.
Qed.

(** X11: the content of a created reading is in normal form: it holds no
    tab, line break or other white space than the plain space, never two
    spaces in a row, and it does not begin with a space. *)
Theorem reading_content_single_spaced (now : nat -> Z) (random36 fileName text : string) :
  single_spaced true (content (createReadingDocument now random36 fileName text)) = true.
Proof.
  cbn [createReadingDocument content].
  apply slice0_single_spaced. unfold trim.
  apply trimEnd_single_spaced, (trimStart_single_spaced false).
  apply collapse_single_spaced.
Qed.

Lemma profile_color_truthy (c : DeliberatoriumColor) : truthy (VStr (color_text c)) = true.
Proof. now destruct c. Qed.

(** X12: a saved profile loads back as it was saved exactly when its name
    is not empty; a profile saved with an empty name loads as null. *)
Theorem profile_round_trip (localStorage : LocalStorage) (profile : DeliberatoriumProfile) :
  loadProfile (saveProfile (Some localStorage) profile)
  = if is_empty (name profile) then None else Some (profile_value profile).
Proof.
  unfold loadProfile, saveProfile. rewrite lookup_insert_eq.
  cbn [profile_value opt_get obj_get String.eqb Ascii.eqb Bool.eqb default].
  cbn -[truthy color_text]. rewrite profile_color_truthy. cbn.
  unfold is_empty. now destruct (String.eqb (name profile) "").
Qed.

(** X13: the three stored entries are independent: saving the readings,
    the workspace or the profile changes what none of the other two
    loaders return. *)
Theorem stored_entries_independent (window : Window) (readings : list ReadingDocument)
    (workspace : WorkspaceState) (profile : DeliberatoriumProfile) (now : nat -> Z) :
  loadWorkspaceState (saveReadings window readings) now = loadWorkspaceState window now
  /\ loadProfile (saveReadings window readings) = loadProfile window
  /\ loadReadings (saveWorkspaceState window workspace) = loadReadings window
  /\ loadProfile (saveWorkspaceState window workspace) = loadProfile window
  /\ loadReadings (saveProfile window profile) = loadReadings window
  /\ loadWorkspaceState (saveProfile window profile) now = loadWorkspaceState window now.
Proof.
  destruct window as [localStorage |]; [| repeat split].
  unfold loadWorkspaceState, loadProfile, loadReadings, saveReadings, saveWorkspaceState,
    saveProfile.
  repeat split; now rewrite lookup_insert_ne.
Qed.

End StorageFacts.

(* ===================================================================== *)
(** * Live transcription hook, continued: connecting and the event loop *)
(* ===================================================================== *)

Module Connection.

Import AssemblyAiAgentNotecards.

(** A value caught by [connect]: an [Error] with its message, or
    anything else. *)
Inductive Thrown : Type :=
| ErrorThrown (message : string)
| OtherThrown.

(** How the [try] block of [connect] ends: one of its awaited calls or
    constructors throws, the token response is not ok, the token is
    missing, or the socket is created and its handlers installed. *)
Inductive ConnectOutcome : Type :=
| Threw (e : Thrown)
| TokenNotOk (status : Z)
| TokenEmpty
| Connected.

(** The value the [catch] clause receives. *)
Definition caught (outcome : ConnectOutcome) : option Thrown :=
  match outcome with
  | Threw e => Some e
  | TokenNotOk status =>
      Some (ErrorThrown ("Token request failed (" ++ Z_to_string status ++ ")"))
  | TokenEmpty => Some (ErrorThrown "Token response was empty.")
  | Connected => None
  end.

(** [e instanceof Error ? e.message : 'Could not start live transcription.'] *)
Definition error_text (e : Thrown) : string :=
  match e with
  | ErrorThrown message => message
  | OtherThrown => "Could not start live transcription."
  end.

Definition connect (attempt : N) (outcome : ConnectOutcome) (st : HookState) : HookState :=
  match caught outcome with
  | None =>
      {| status := if (0 <? attempt)%N then reconnecting else connecting;
         isListening := isListening st; error := None;
         liveTranscript := liveTranscript st; lastTurnSummary := lastTurnSummary st;
         processedTurnIds := processedTurnIds st; slot := slot st;
         ws := true; audio := true; shouldReconnect := shouldReconnect st;
         reconnectTimeout := reconnectTimeout st |}
  | Some e =>
      {| status := status_error; isListening := false; error := Some (error_text e);
         liveTranscript := liveTranscript st; lastTurnSummary := lastTurnSummary st;
         processedTurnIds := processedTurnIds st; slot := slot st;
         ws := ws st; audio := false; shouldReconnect := false;
         reconnectTimeout := reconnectTimeout st |}
  end.

Definition ws_onopen (st : HookState) : HookState :=
  {| status := listening; isListening := true; error := error st;
     liveTranscript := liveTranscript st; lastTurnSummary := lastTurnSummary st;
     processedTurnIds := processedTurnIds st; slot := slot st;
     ws := ws st; audio := true; shouldReconnect := shouldReconnect st;
     reconnectTimeout := reconnectTimeout st |}.

Definition ws_onerror (st : HookState) : HookState :=
  {| status := status st; isListening := isListening st;
     error := Some "AssemblyAI connection encountered an error.";
     liveTranscript := liveTranscript st; lastTurnSummary := lastTurnSummary st;
     processedTurnIds := processedTurnIds st; slot := slot st;
     ws := ws st; audio := audio st; shouldReconnect := shouldReconnect st;
     reconnectTimeout := reconnectTimeout st |}.

Definition busy (st : HookState) : bool :=
  isListening st
  || match status st with connecting | reconnecting => true | _ => false end.

Definition start (outcome : ConnectOutcome) (st : HookState) : HookState :=
  if busy st then st
  else
    connect 0 outcome
      {| status := status st; isListening := isListening st; error := error st;
         liveTranscript := liveTranscript st; lastTurnSummary := lastTurnSummary st;
         processedTurnIds := processedTurnIds st; slot := slot st;
         ws := ws st; audio := audio st; shouldReconnect := true;
         reconnectTimeout := reconnectTimeout st |}.

(** The reconnect timer fires and runs [connect(nextAttempt)]. *)
Definition timer_fired (outcome : ConnectOutcome) (st : HookState) : HookState :=
  match reconnectTimeout st with
  | Some timer => connect (timer_attempt timer) outcome st
  | None => st
  end.

(** What can happen to a mounted hook. *)
Inductive HookEvent : Type :=
| EvStart (outcome : ConnectOutcome)
| EvStop
| EvOpen
| EvError
| EvClose (attempt : N)
| EvTimer (outcome : ConnectOutcome)
| EvMessage (agent : Agent) (data : MessageData).

Definition handle (ev : HookEvent) (st : HookState) : HookState * option AgentRequest :=
  match ev with
  | EvStart outcome => (start outcome st, None)
  | EvStop => (stop st, None)
  | EvOpen => (ws_onopen st, None)
  | EvError => (ws_onerror st, None)
  | EvClose attempt => (ws_onclose attempt st, None)
  | EvTimer outcome => (timer_fired outcome st, None)
  | EvMessage agent data => ws_onmessage agent data st
  end.

Fixpoint run (events : list HookEvent) (st : HookState)
  : HookState * list (option AgentRequest) :=
  match events with
  | [] => (st, [])
  | ev :: rest =>
      let '(st1, out) := handle ev st in
      let '(st2, outs) := run rest st1 in
      (st2, out :: outs)
  end.

End Connection.

(* ===================================================================== *)
(** * Further properties: the transcription hook *)
(* ===================================================================== *)

Module HookFacts.

Import AssemblyAiAgentNotecards Connection.

(** A turn message with a transcript, marked as ended or formatted. *)
Definition finalized (m : AssemblyAiTurnMessage) : bool :=
  match type m, transcript m with
  | Some t, Some _ =>
      String.eqb t "Turn"
      && (nullish (end_of_turn m) false || nullish (turn_is_formatted m) false)
  | _, _ => false
  end.

(** The key a turn is filed under: its id, else its order, else the
    clock and the first 20 characters of the trimmed transcript. *)
Definition turn_key (agent : Agent) (m : AssemblyAiTurnMessage) : string :=
  match id m with
  | Some i => i
  | None =>
      match turn_order m with
      | Some n => "turn-" ++ Z_to_string n
      | None =>
          "turn-" ++ Z_to_string (Date_now agent) ++ "-"
          ++ slice0 20 (trim (default "" (transcript m)))
      end
  end.

Lemma truthy_trim (text : string) :
  truthy (VStr (trim text)) = negb (StorageFacts.all_space text).
Proof. cbn. f_equal. apply StorageFacts.trim_empty. Qed.

(** X14: a socket message makes the agent schedule a request exactly
    when it is a parsed Turn message marked ended or formatted, its
    transcript is not blank, and its key has not been processed; a
    partial turn, another message type, binary or unparseable data, a
    blank transcript and a repeated key schedule nothing.  A scheduled
    request has source self, the agent's context items and a box of the
    fixed card size plus margin. *)
Theorem message_schedules_iff (agent : Agent) (data : MessageData) (st : HookState) :
  NotecardFacts.scheduled (snd (ws_onmessage agent data st))
  = match data with
    | Text (Some m) =>
        finalized m
        && negb (StorageFacts.all_space (default "" (transcript m)))
        && negb (bool_decide (turn_key agent m ∈ processedTurnIds st))
    | _ => false
    end
  /\ match snd (ws_onmessage agent data st) with
     | Some request =>
         source request = "self"
         /\ contextItems request = getItems agent
         /\ w (bounds request) = inject_Z 352 /\ h (bounds request) = inject_Z 172
     | None => True
     end.
Proof.
  destruct data as [| [m |]]; try (now split).
  unfold ws_onmessage, handleSocketMessage, finalized, turn_key.
  destruct (type m) as [t |]; [| now split].
  destruct (transcript m) as [text |] eqn:Htext; [| now split].
  destruct (String.eqb t "Turn"); [| now split].
  destruct (nullish (end_of_turn m) false || nullish (turn_is_formatted m) false);
    [| now split].
  unfold queueTurnAsNotecard. rewrite Htext.
  change (default "" (Some text)) with text. cbn [option_map andb].
  rewrite truthy_trim.
  destruct (StorageFacts.all_space text); cbn [negb]; [now split |].
  cbn [setLiveTranscript processedTurnIds].
  case_bool_decide; now split.
Qed.

Definition count_scheduled (outs : list (option AgentRequest)) : Z :=
  Z.of_nat (List.length (List.filter NotecardFacts.scheduled outs)).

Lemma handle_slot (ev : HookEvent) (st : HookState) :
  slot (fst (handle ev st))
  = slot st + (if NotecardFacts.scheduled (snd (handle ev st)) then 1 else 0).
Proof.
  destruct ev as [o | | | | a | o | agent data]; cbn [handle fst snd NotecardFacts.scheduled];
    try (cbn; lia).
  - unfold start. destruct (busy st); [lia |]. unfold connect.
    destruct (caught o); cbn; lia.
  - unfold ws_onclose. destruct (negb (shouldReconnect st)); cbn; lia.
  - unfold timer_fired. destruct (reconnectTimeout st); [| lia]. unfold connect.
    destruct (caught o); cbn; lia.
  - destruct data as [| [m |]]; cbn; try lia.
    unfold handleSocketMessage.
    destruct (type m) as [t |]; [| cbn; lia].
    destruct (transcript m) as [text |] eqn:Htext; [| cbn; lia].
    destruct (String.eqb t "Turn"); [| cbn; lia].
    destruct (nullish (end_of_turn m) false || nullish (turn_is_formatted m) false);
      [| cbn; lia].
    unfold queueTurnAsNotecard. rewrite Htext. cbn [option_map].
    destruct (negb (truthy (VStr (trim text)))); [cbn; lia |].
    case_bool_decide; cbn; lia.
Qed.

(** X15: over any run of hook events (start, stop, open, error, close,
    timer, message) the slot counter grows by exactly the number of
    requests scheduled, so no two requests of a session share a slot. *)
Theorem run_slot_counts_requests (events : list HookEvent) (st : HookState) :
  slot (fst (run events st)) = slot st + count_scheduled (snd (run events st)).
Proof.
  revert st. induction events as [| ev rest IH]; intros st;
    [unfold count_scheduled; cbn; lia |].
  cbn [run]. pose proof (handle_slot ev st) as Hstep.
  destruct (handle ev st) as [st1 out]. cbn [fst snd] in Hstep.
  specialize (IH st1). destruct (run rest st1) as [st2 outs].
  cbn [fst snd] in *. unfold count_scheduled in *. cbn [List.filter].
  destruct (NotecardFacts.scheduled out); cbn [List.length] in *; lia.
Qed.

End HookFacts.

Module PlacementFacts.

Import AssemblyAiAgentNotecards.









End PlacementFacts.

Module SessionFacts.

Import AssemblyAiAgentNotecards Connection.

Definition failed (outcome : ConnectOutcome) : bool :=
  match outcome with Connected => false | _ => true end.

(** X18: a connection attempt that fails, at any step and on any attempt
    number, leaves the hook in the error status with a message to show,
    not listening, the audio pipeline released and reconnection switched
    off: a socket that closes afterwards schedules no retry and puts the
    status to idle. *)
Theorem failed_connect_halts (attempt later : N) (outcome : ConnectOutcome) (st : HookState) :
  failed outcome = true ->
  let st' := connect attempt outcome st in
  status st' = status_error
  /\ (exists message : string, error st' = Some message)
  /\ isListening st' = false /\ audio st' = false /\ shouldReconnect st' = false
  /\ reconnectTimeout (ws_onclose later st') = reconnectTimeout st
  /\ status (ws_onclose later st') = idle
  /\ processedTurnIds st' = processedTurnIds st.
Proof.
  intros Hfailed st'. subst st'. unfold connect.
  destruct outcome as [e | code | |]; try discriminate; cbn; repeat split; eauto.
Qed.

Lemma failed_connect_halts_witness :
  let st' := connect 3 (TokenNotOk 502) ReconnectFacts.listening_state in
  status st' = status_error
  /\ error st' = Some "Token request failed (502)"
  /\ reconnectTimeout (ws_onclose 3 st') = None.
Proof.
  pose proof (failed_connect_halts 3 3 (TokenNotOk 502) ReconnectFacts.listening_state eq_refl)
    as (Hstatus & _ & _ & _ & _ & Htimer & _).
  split; [exact Hstatus |]. split; [reflexivity | exact Htimer].
Defined.

Definition event_carries (i : string) (ev : HookEvent) : bool :=
  match ev with
  | EvMessage _ data => NotecardFacts.carries_id i data
  | _ => false
  end.

Fixpoint session_dispatches (i : string) (events : list HookEvent)
    (outs : list (option AgentRequest)) : nat :=
  match events, outs with
  | ev :: events', out :: outs' =>
      (if event_carries i ev && NotecardFacts.scheduled out then 1 else 0)%nat
      + session_dispatches i events' outs'
  | _, _ => 0%nat
  end.

Lemma handle_processed (ev : HookEvent) (st : HookState) :
  match snd (handle ev st) with
  | None => processedTurnIds (fst (handle ev st)) = processedTurnIds st
  | Some _ =>
      exists turnId : string,
        (turnId ∉ processedTurnIds st)
        /\ processedTurnIds (fst (handle ev st)) = {[ turnId ]} ∪ processedTurnIds st
        /\ (forall i, event_carries i ev = true -> turnId = i)
  end.
Proof.
  destruct ev as [o | | | | a | o | agent data]; cbn [handle fst snd event_carries];
    try reflexivity.
  - unfold start. destruct (busy st); [reflexivity |]. unfold connect.
    now destruct (caught o).
  - unfold ws_onclose. now destruct (negb (shouldReconnect st)).
  - unfold timer_fired. destruct (reconnectTimeout st); [| reflexivity]. unfold connect.
    now destruct (caught o).
  - apply NotecardFacts.ws_onmessage_processed.
Qed.

Lemma session_processed_silent (i : string) (events : list HookEvent) (st : HookState) :
  i ∈ processedTurnIds st ->
  session_dispatches i events (snd (run events st)) = 0%nat.
Proof.
  revert st. induction events as [| ev rest IH]; intros st Hseen; [reflexivity |].
  cbn [run]. pose proof (handle_processed ev st) as Hstep.
  destruct (handle ev st) as [st1 out]. cbn [fst snd] in Hstep.
  destruct (run rest st1) as [st2 outs] eqn:Hrest. cbn [snd session_dispatches].
  assert (i ∈ processedTurnIds st1) as Hseen1.
  { destruct out; [destruct Hstep as (t & _ & -> & _); set_solver | now rewrite Hstep]. }
  specialize (IH st1 Hseen1). rewrite Hrest in IH. cbn [snd] in IH. rewrite IH.
  destruct out as [request |]; [| now rewrite andb_false_r].
  destruct Hstep as (turnId & Hnew & _ & Hid).
  destruct (event_carries i ev) eqn:Hcarries; [| reflexivity].
  exfalso. apply Hnew. now rewrite (Hid i Hcarries).
Qed.

(** X19: deduplication holds across the whole life of a mounted hook: in
    any sequence of starts, stops, socket opens, errors and closes, timer
    firings and messages, the messages carrying one id make the agent
    schedule at most one request; stopping and reconnecting never make a
    turn eligible again. *)
Theorem session_id_dispatched_once (i : string) (events : list HookEvent) (st : HookState) :
  (session_dispatches i events (snd (run events st)) <= 1)%nat.
Proof.
  revert st. induction events as [| ev rest IH]; intros st; [cbn; lia |].
  cbn [run]. pose proof (handle_processed ev st) as Hstep.
  destruct (handle ev st) as [st1 out]. cbn [fst snd] in Hstep.
  pose proof (IH st1) as Hrest.
  pose proof (session_processed_silent i rest st1) as Hsilent.
  destruct (run rest st1) as [st2 outs]. cbn [snd session_dispatches] in *.
  destruct (event_carries i ev && NotecardFacts.scheduled out) eqn:Hhit; [| lia].
  apply andb_true_iff in Hhit as [Hcarries Hout].
  destruct out as [request |]; [| discriminate].
  destruct Hstep as (turnId & _ & Hadd & Hid).
  rewrite Hsilent; [lia |].
  rewrite Hadd. rewrite (Hid i Hcarries).
  apply elem_of_union. left. now apply elem_of_singleton.
Qed.

Definition is_start (ev : HookEvent) : bool :=
  match ev with EvStart _ => true | _ => false end.

Lemma handle_stays_stopped (ev : HookEvent) (st : HookState) :
  is_start ev = false ->
  shouldReconnect st = false -> reconnectTimeout st = None ->
  shouldReconnect (fst (handle ev st)) = false
  /\ reconnectTimeout (fst (handle ev st)) = None.
Proof.
  intros Hev Hwant Htimer.
  destruct ev as [o | | | | a | o | agent data]; try discriminate; cbn [handle fst];
    try (now split).
  - unfold ws_onclose. rewrite Hwant. now split.
  - unfold timer_fired. rewrite Htimer. now split.
  - destruct data as [| [m |]]; try (now split). cbn [ws_onmessage].
    unfold handleSocketMessage.
    destruct (type m) as [t |]; [| now split].
    destruct (transcript m) as [text |] eqn:Htext; [| now split].
    destruct (String.eqb t "Turn"); [| now split].
    destruct (nullish (end_of_turn m) false || nullish (turn_is_formatted m) false);
      [| now split].
    unfold queueTurnAsNotecard. rewrite Htext. cbn [option_map].
    destruct (negb (truthy (VStr (trim text)))); [now split |].
    case_bool_decide; now split.
Qed.

(** X20: after [stop] nothing reconnects until the user starts again:
    through any events that include no start, reconnection stays
    switched off and no retry timer is pending; the turn ids processed
    before the stop are still remembered. *)
Theorem stopped_until_start (events : list HookEvent) (st : HookState) :
  forallb (fun ev => negb (is_start ev)) events = true ->
  let st' := fst (run events (stop st)) in
  shouldReconnect st' = false
  /\ reconnectTimeout st' = None
  /\ processedTurnIds st ⊆ processedTurnIds st'.
Proof.
  intros Hevents st'. subst st'.
  assert (forall s, shouldReconnect s = false -> reconnectTimeout s = None ->
            shouldReconnect (fst (run events s)) = false
            /\ reconnectTimeout (fst (run events s)) = None
            /\ processedTurnIds s ⊆ processedTurnIds (fst (run events s))) as Hrun.
  { induction events as [| ev rest IH]; intros s Hwant Htimer; [now repeat split |].
    cbn in Hevents. apply andb_true_iff in Hevents as [Hev Hrest].
    apply negb_true_iff in Hev.
    cbn [run]. pose proof (handle_stays_stopped ev s Hev Hwant Htimer) as [Hw Ht].
    pose proof (handle_processed ev s) as Hstep.
    destruct (handle ev s) as [s1 out]. cbn [fst snd] in *.
    specialize (IH Hrest s1 Hw Ht) as (Hw2 & Ht2 & Hsub).
    destruct (run rest s1) as [s2 outs]. cbn [fst] in *.
    split; [exact Hw2 |]. split; [exact Ht2 |].
    transitivity (processedTurnIds s1); [| exact Hsub].
    destruct out; [destruct Hstep as (t & _ & -> & _); apply union_subseteq_r
                  | now rewrite Hstep]. }
  apply (Hrun (stop st)); reflexivity.
Qed.

Lemma stopped_until_start_witness :
  let st' := fst (run [EvClose 0; EvTimer Connected; EvError] (stop ReconnectFacts.listening_state)) in
  shouldReconnect st' = false /\ reconnectTimeout st' = None.
Proof.
  pose proof (stopped_until_start [EvClose 0; EvTimer Connected; EvError]
                ReconnectFacts.listening_state eq_refl) as (Hw & Ht & _).
  now split.
Defined.

End SessionFacts.

(* ===================================================================== *)
(** * App shell (App.tsx): the gate, the status label and the handlers
      that change the stored workspace *)
(* ===================================================================== *)

Module App.

Import Storage StorageEntries.

Definition PDF_URL_HASH := "#deliberatorium-pdf".

(** An uploaded [File]: its name, its MIME type and what [file.text()]
    resolves to. *)
Record UploadedFile := {
  upload_name : string;
  upload_type : string;
  upload_text : string
}.

Definition lower_ascii (c : ascii) : ascii :=
  let n := N_of_ascii c in
  if ((65 <=? n) && (n <=? 90))%N then ascii_of_N (n + 32) else c.

Fixpoint lower (s : string) : string :=
  match s with
  | EmptyString => EmptyString
  | String c rest => String (lower_ascii c) (lower rest)
  end.

(** [/\.pdf$/i.test(name)]: the name ends in .pdf, in any letter case. *)
Definition ends_with_pdf (name : string) : bool :=
  String.eqb (lower (str_drop (String.length name - 4) name)) ".pdf".

Definition isPdfFile (file : UploadedFile) : bool :=
  String.eqb (upload_type file) "application/pdf" || ends_with_pdf (upload_name file).

(** [lastSavedLabel], for the clock reading [now].  The times are whole
    milliseconds, on which [Math.round(e / 60000)] is the quotient of
    [e + 30000] by 60000. *)
Definition lastSavedLabel (now lastSavedAt : Z) : string :=
  let elapsed := now - lastSavedAt in
  if elapsed <? 30000 then "just now"
  else
    let minutes := Z.max 1 ((elapsed + 30000) / 60000) in
    if minutes <? 60 then Z_to_string minutes ++ "m ago"
    else
      let hours := (minutes + 30) / 60 in
      Z_to_string hours ++ "h ago".

(** ** The authentication gate *)

(** [import.meta.env.VITE_CLASS_PASSWORD ?? 'deliberatorium'] *)
Definition CLASS_PASSWORD (configured : option string) : string :=
  nullish configured "deliberatorium".

Record AuthForm := {
  form_password : string;
  form_name : string;
  form_color : DeliberatoriumColor;
  form_error : option string
}.

Definition with_error (message : string) (form : AuthForm) : AuthForm :=
  {| form_password := form_password form; form_name := form_name form;
     form_color := form_color form; form_error := Some message |}.

(** The form after a submit and the profile handed to [onSubmit], if any. *)
Definition handleSubmit (configured : option string) (form : AuthForm)
  : AuthForm * option DeliberatoriumProfile :=
  if negb (String.eqb (form_password form) (CLASS_PASSWORD configured))
  then (with_error "Incorrect class password." form, None)
  else if negb (truthy (VStr (trim (form_name form))))
  then (with_error "Please enter your name." form, None)
  else (form, Some {| name := trim (form_name form); color := form_color form |}).

(** ** State and handlers *)

Record AppState := {
  readings : list ReadingDocument;
  readingPdfUrls : gmap string string;
  workspace : WorkspaceState;
  activeFileId : option string;
  selectedFolderId : option string;
  expandedFolderIds : gmap string bool;
  window : Window
}.

(** [updateWorkspace(updater)]: the next workspace is stored and set. *)
Definition updateWorkspace (updater : WorkspaceState -> WorkspaceState) (st : AppState)
  : AppState :=
  let next := updater (workspace st) in
  {| readings := readings st; readingPdfUrls := readingPdfUrls st;
     workspace := next;
     activeFileId := activeFileId st; selectedFolderId := selectedFolderId st;
     expandedFolderIds := expandedFolderIds st;
     window := saveWorkspaceState (window st) next |}.

Definition add_folder (folder : WorkspaceFolder) (prev : WorkspaceState) : WorkspaceState :=
  {| folders := (folders prev ++ [folder_value folder])%list; files := files prev |}.

Definition add_file (file : WorkspaceFile) (prev : WorkspaceState) : WorkspaceState :=
  {| folders := folders prev; files := (files prev ++ [file_value file])%list |}.

(** [!name || !name.trim()] on what [window.prompt] returned. *)
Definition unusable_name (answer : option string) : bool :=
  match answer with
  | None => true
  | Some name => negb (truthy (VStr name)) || negb (truthy (VStr (trim name)))
  end.

Definition handleCreateFolder (answer : option string) (now : nat -> Z) (random36 : string)
    (st : AppState) : AppState :=
  if unusable_name answer then st
  else
    let folder := createWorkspaceFolder now random36 (default "" answer) (selectedFolderId st) in
    let st := updateWorkspace (add_folder folder) st in
    {| readings := readings st; readingPdfUrls := readingPdfUrls st;
       workspace := workspace st;
       activeFileId := activeFileId st;
       selectedFolderId := Some (folder_id folder);
       expandedFolderIds :=
         <[folder_id folder := true]>
           (<[nullish (selectedFolderId st) "root" := true]> (expandedFolderIds st));
       window := window st |}.

Definition handleCreateFile (answer : option string) (now : nat -> Z) (random36 : string)
    (st : AppState) : AppState :=
  if unusable_name answer then st
  else
    let file := createCanvasWorkspaceFile now random36 (default "" answer) (selectedFolderId st) in
    let st := updateWorkspace (add_file file) st in
    {| readings := readings st; readingPdfUrls := readingPdfUrls st;
       workspace := workspace st;
       activeFileId := Some (file_id file);
       selectedFolderId := selectedFolderId st;
       expandedFolderIds := expandedFolderIds st;
       window := window st |}.

(** [handleReadingUpload]: the new state and whether the alert was shown.
    [objectUrl] is what [URL.createObjectURL(file)] returns. *)
Definition handleReadingUpload (chosen : option UploadedFile) (now : nat -> Z)
    (random36 objectUrl : string) (st : AppState) : AppState * bool :=
  match chosen with
  | None => (st, false)
  | Some file =>
      let pdfUpload := isPdfFile file in
      let content :=
        if pdfUpload then "PDF uploaded: " ++ upload_name file else upload_text file in
      if negb pdfUpload && negb (truthy (VStr (trim content))) then (st, true)
      else
        let reading := createReadingDocument now random36 (upload_name file) content in
        let next := (readings st ++ [reading])%list in
        let stored := saveReadings (window st) next in
        let readingFile :=
          createReadingWorkspaceFile reading (Some DEFAULT_READINGS_FOLDER_ID) in
        let next_workspace := add_file readingFile (workspace st) in
        ({| readings := next;
            readingPdfUrls :=
              if pdfUpload
              then <[id reading := objectUrl ++ PDF_URL_HASH]> (readingPdfUrls st)
              else readingPdfUrls st;
            workspace := next_workspace;
            activeFileId := Some (file_id readingFile);
            selectedFolderId := Some DEFAULT_READINGS_FOLDER_ID;
            expandedFolderIds := <[DEFAULT_READINGS_FOLDER_ID := true]> (expandedFolderIds st);
            window := saveWorkspaceState stored next_workspace |},
         false)
  end.

(** ** The mount effect: reading files for the loaded readings *)

(** [file.type === 'reading'] *)
Definition is_reading_file (file : JsValue) : bool :=
  match opt_get file "type" with
  | VStr t => String.eqb t "reading"
  | _ => false
  end.

(** [readingIdsInWorkspace.has(reading.id)] *)
Definition has_reading_file (ws : WorkspaceState) (reading : ReadingDocument) : bool :=
  existsb (fun file =>
             match opt_get file "readingId" with
             | VStr r => String.eqb r (id reading)
             | _ => false
             end)
          (List.filter is_reading_file (files ws)).

(** The workspace after the files of the readings that have none are
    added, and the storage after it is saved when any was added.  The
    readings are the loaded ones, as the typed documents the loader
    declares. *)
Definition attach_reading_files (initialReadings : list ReadingDocument)
    (initialWorkspace : WorkspaceState) (window : Window) : WorkspaceState * Window :=
  let missingReadingFiles :=
    map (fun reading =>
           file_value (createReadingWorkspaceFile reading (Some DEFAULT_READINGS_FOLDER_ID)))
        (List.filter (fun reading => negb (has_reading_file initialWorkspace reading))
                     initialReadings) in
  match missingReadingFiles with
  | [] => (initialWorkspace, window)
  | _ =>
      let next := {| folders := folders initialWorkspace;
                     files := (files initialWorkspace ++ missingReadingFiles)%list |} in
      (next, saveWorkspaceState window next)
  end.

End App.

(* ===================================================================== *)
(** * Further properties: the App shell *)
(* ===================================================================== *)

Module AppFacts.

Import Storage StorageEntries App.

(** X21: the "last saved" label.  Below 30 seconds (a clock that went
    backwards included) it reads "just now"; from 30 seconds to below
    59.5 minutes it shows the minutes, rounded, always between 1 and 59;
    from 59.5 minutes on it shows the hours, at least 1.  It never shows
    a zero count. *)
Theorem lastSavedLabel_ranges (now lastSavedAt : Z) :
  let elapsed := now - lastSavedAt in
  (elapsed < 30000 -> lastSavedLabel now lastSavedAt = "just now")
  /\ (30000 <= elapsed < 3570000 ->
      exists minutes : Z,
        1 <= minutes <= 59
        /\ minutes = (elapsed + 30000) / 60000
        /\ lastSavedLabel now lastSavedAt = Z_to_string minutes ++ "m ago")
  /\ (3570000 <= elapsed ->
      exists hours : Z,
        1 <= hours
        /\ hours = ((elapsed + 30000) / 60000 + 30) / 60
        /\ lastSavedLabel now lastSavedAt = Z_to_string hours ++ "h ago").
Proof.
  intros elapsed. unfold lastSavedLabel. fold elapsed.
  repeat split.
  - intros Hrecent. now destruct (Z.ltb_spec elapsed 30000); [| lia].
  - intros [Hlow Hhigh].
    destruct (Z.ltb_spec elapsed 30000); [lia |].
    assert (1 <= (elapsed + 30000) / 60000 <= 59) as Hm
      by (Z.div_mod_to_equations; lia).
    rewrite Z.max_r by lia.
    destruct (Z.ltb_spec ((elapsed + 30000) / 60000) 60); [| lia].
    now exists ((elapsed + 30000) / 60000).
  - intros Hlong.
    destruct (Z.ltb_spec elapsed 30000); [lia |].
    assert (60 <= (elapsed + 30000) / 60000) as Hm by (Z.div_mod_to_equations; lia).
    rewrite Z.max_r by lia.
    destruct (Z.ltb_spec ((elapsed + 30000) / 60000) 60); [lia |].
    exists (((elapsed + 30000) / 60000 + 30) / 60).
    split; [Z.div_mod_to_equations; lia | now split].
Qed.

Example lastSavedLabel_samples :
  map (fun elapsed => lastSavedLabel (1700000000000 + elapsed) 1700000000000)
      [-5000; 0; 29999; 30000; 89999; 90000; 3569999; 3570000; 5400000; 9000000]
  = ["just now"; "just now"; "just now"; "1m ago"; "1m ago"; "2m ago"; "59m ago";
     "1h ago"; "2h ago"; "3h ago"].
Proof. vm_compute. reflexivity. Qed.

(** X22: the gate hands a profile to the app only when the password is
    the class password and the name is not blank; the profile carries the
    trimmed name and the chosen color, and once saved it loads back as it
    is, never as null.  Otherwise the form shows the matching error and
    nothing is submitted. *)
Theorem gate_submits_loadable_profile (configured : option string) (form : AuthForm)
    (localStorage : LocalStorage) :
  match handleSubmit configured form with
  | (form', Some profile) =>
      form' = form
      /\ form_password form = CLASS_PASSWORD configured
      /\ name profile = trim (form_name form)
      /\ StorageFacts.is_empty (name profile) = false
      /\ color profile = form_color form
      /\ loadProfile (saveProfile (Some localStorage) profile) = Some (profile_value profile)
  | (form', None) =>
      (form_password form <> CLASS_PASSWORD configured
       /\ form_error form' = Some "Incorrect class password.")
      \/ (form_password form = CLASS_PASSWORD configured
          /\ StorageFacts.all_space (form_name form) = true
          /\ form_error form' = Some "Please enter your name.")
  end.
Proof.
  unfold handleSubmit.
  destruct (String.eqb_spec (form_password form) (CLASS_PASSWORD configured)) as [Hpw | Hpw];
    cbn [negb]; [| now left].
  rewrite HookFacts.truthy_trim, negb_involutive.
  destruct (StorageFacts.all_space (form_name form)) eqn:Hblank; [now right |].
  assert (StorageFacts.is_empty (trim (form_name form)) = false) as Hname
    by now rewrite StorageFacts.trim_empty.
  repeat split; try assumption.
  unfold loadProfile, saveProfile. rewrite lookup_insert_eq.
  cbn -[truthy color_text trim]. rewrite StorageFacts.profile_color_truthy.
  cbn [truthy]. unfold StorageFacts.is_empty in Hname. cbn [name]. now rewrite Hname.
Qed.

End AppFacts.

Module WorkspaceOps.

Import Storage StorageEntries App.

(** A workspace the loader gives back as it is: every entry passes the
    loader's filter and the defaults are there. *)
Definition well_formed (ws : WorkspaceState) : bool :=
  forallb WorkspaceFacts.valid_folder (folders ws)
  && forallb WorkspaceFacts.valid_file (files ws)
  && WorkspaceFacts.has_defaults ws.

Lemma well_formed_reloads (localStorage : LocalStorage) (ws : WorkspaceState) (now : nat -> Z) :
  well_formed ws = true ->
  loadWorkspaceState (saveWorkspaceState (Some localStorage) ws) now = ws.
Proof.
  unfold well_formed. intros [[Hfolders Hfiles]%andb_true_iff Hdefaults]%andb_true_iff.
  now apply WorkspaceFacts.load_saved_state.
Qed.

Lemma loaded_well_formed (window : Window) (now : nat -> Z) :
  well_formed (loadWorkspaceState window now) = true.
Proof.
  unfold well_formed.
  destruct (WorkspaceFacts.parsed_arrays window) as [[pf pfi] |] eqn:Hparsed.
  - rewrite (WorkspaceFacts.loadWorkspaceState_usable _ _ _ _ Hparsed).
    destruct (WorkspaceFacts.reseeded_valid now pf pfi) as [-> ->].
    now rewrite WorkspaceFacts.reseeded_has_defaults.
  - now rewrite (WorkspaceFacts.loadWorkspaceState_unusable _ _ Hparsed).
Qed.

Lemma has_defaults_grows (ws : WorkspaceState) (more_folders more_files : list JsValue) :
  WorkspaceFacts.has_defaults ws = true ->
  WorkspaceFacts.has_defaults
    {| folders := (folders ws ++ more_folders)%list;
       files := (files ws ++ more_files)%list |} = true.
Proof.
  unfold WorkspaceFacts.has_defaults. cbn [folders files]. rewrite !existsb_app.
  intros H. repeat (apply andb_true_iff in H as [H ?]).
  repeat (apply andb_true_iff; split); apply orb_true_iff; now left.
Qed.

Lemma well_formed_grows (ws : WorkspaceState) (more_folders more_files : list JsValue) :
  well_formed ws = true ->
  forallb WorkspaceFacts.valid_folder more_folders = true ->
  forallb WorkspaceFacts.valid_file more_files = true ->
  well_formed {| folders := (folders ws ++ more_folders)%list;
                 files := (files ws ++ more_files)%list |} = true.
Proof.
  unfold well_formed. intros [[Hfolders Hfiles]%andb_true_iff Hdefaults]%andb_true_iff Hmf Hmfi.
  cbn [folders files]. rewrite !forallb_app, Hfolders, Hfiles, Hmf, Hmfi.
  now rewrite has_defaults_grows.
Qed.

Lemma append_not_empty (a b : string) : String.eqb (a ++ "-" ++ b) "" = false.
Proof. now destruct a. Qed.

Lemma created_folder_valid (now : nat -> Z) (random36 name : string) (parent : option string) :
  WorkspaceFacts.valid_folder (folder_value (createWorkspaceFolder now random36 name parent))
  = negb (StorageFacts.all_space name).
Proof.
  unfold WorkspaceFacts.valid_folder, has_all, createWorkspaceFolder, createId.
  cbn -[trim Z_to_string slice String.append].
  cbn [String.append]. rewrite <- StorageFacts.trim_empty.
  unfold StorageFacts.is_empty. now rewrite andb_true_r.
Qed.

Lemma created_file_valid (now : nat -> Z) (random36 name : string) (parent : option string) :
  WorkspaceFacts.valid_file (file_value (createCanvasWorkspaceFile now random36 name parent))
  = negb (StorageFacts.all_space name).
Proof.
  unfold WorkspaceFacts.valid_file, has_all, createCanvasWorkspaceFile, createId.
  cbn -[trim Z_to_string slice String.append].
  cbn [String.append]. rewrite <- StorageFacts.trim_empty.
  unfold StorageFacts.is_empty. now rewrite andb_true_r.
Qed.

Lemma reading_file_valid (reading : ReadingDocument) (parent : option string) :
  WorkspaceFacts.valid_file (file_value (createReadingWorkspaceFile reading parent))
  = negb (StorageFacts.is_empty (title reading)).
Proof.
  unfold WorkspaceFacts.valid_file, has_all, createReadingWorkspaceFile.
  cbn -[String.append]. cbn [String.append].
  unfold StorageFacts.is_empty. now rewrite andb_true_r.
Qed.

Lemma usable_name_not_blank (answer : option string) :
  unusable_name answer = false ->
  exists name : string, answer = Some name /\ StorageFacts.all_space name = false.
Proof.
  destruct answer as [name |]; [| discriminate]. cbn [unusable_name].
  rewrite HookFacts.truthy_trim, negb_involutive.
  intros [_ Hblank]%orb_false_iff. now exists name.
Qed.

(** X23: creating a folder or a canvas file keeps the stored workspace
    loadable as it is.  From a well-formed workspace (every entry passes
    the loader's filter, the defaults are present) and a usable prompt
    answer, the new entry is appended, the result is well formed again,
    and loading what the handler stored returns exactly the workspace in
    the state, new entry included; a cancelled or blank answer changes
    nothing. *)
Theorem created_entries_reload (answer : option string) (now later : nat -> Z)
    (random36 : string) (st : AppState) (localStorage : LocalStorage) :
  well_formed (workspace st) = true ->
  window st = Some localStorage ->
  let with_folder := handleCreateFolder answer now random36 st in
  let with_file := handleCreateFile answer now random36 st in
  if unusable_name answer
  then with_folder = st /\ with_file = st
  else
    well_formed (workspace with_folder) = true
    /\ well_formed (workspace with_file) = true
    /\ loadWorkspaceState (window with_folder) later = workspace with_folder
    /\ loadWorkspaceState (window with_file) later = workspace with_file
    /\ (exists folder : WorkspaceFolder,
          folders (workspace with_folder) = (folders (workspace st) ++ [folder_value folder])%list
          /\ files (workspace with_folder) = files (workspace st)
          /\ folder_parentId folder = selectedFolderId st
          /\ selectedFolderId with_folder = Some (folder_id folder))
    /\ (exists file : WorkspaceFile,
          files (workspace with_file) = (files (workspace st) ++ [file_value file])%list
          /\ folders (workspace with_file) = folders (workspace st)
          /\ file_parentId file = selectedFolderId st
          /\ activeFileId with_file = Some (file_id file)).
Proof.
  intros Hwf Hwindow with_folder with_file. subst with_folder with_file.
  unfold handleCreateFolder, handleCreateFile.
  destruct (unusable_name answer) eqn:Hanswer; [now split |].
  destruct (usable_name_not_blank answer Hanswer) as (name & -> & Hname).
  cbn [default workspace window updateWorkspace selectedFolderId activeFileId].
  rewrite Hwindow.
  assert (well_formed (add_folder (createWorkspaceFolder now random36 name (selectedFolderId st))
                         (workspace st)) = true) as Hfolder.
  { unfold add_folder. rewrite <- (app_nil_r (files (workspace st))).
    apply well_formed_grows; [exact Hwf | | reflexivity].
    cbn [forallb]. now rewrite created_folder_valid, Hname. }
  assert (well_formed (add_file (createCanvasWorkspaceFile now random36 name (selectedFolderId st))
                         (workspace st)) = true) as Hfile.
  { unfold add_file. rewrite <- (app_nil_r (folders (workspace st))).
    apply well_formed_grows; [exact Hwf | reflexivity |].
    cbn [forallb]. now rewrite created_file_valid, Hname. }
  split; [exact Hfolder |]. split; [exact Hfile |].
  split; [now apply well_formed_reloads |]. split; [now apply well_formed_reloads |].
  split; eexists; repeat split.
Qed.

Definition fresh_state : AppState :=
  {| readings := []; readingPdfUrls := ∅;
     workspace := loadWorkspaceState (Some ∅) WorkspaceFacts.zero_clock;
     activeFileId := Some "weekly-prep"; selectedFolderId := None;
     expandedFolderIds := ∅; window := Some ∅ |}.

Lemma created_entries_reload_witness :
  loadWorkspaceState
    (window (handleCreateFolder (Some " Week 3 ") TruncationFacts.clock "0.k3j9x2mq" fresh_state))
    WorkspaceFacts.zero_clock
  = workspace (handleCreateFolder (Some " Week 3 ") TruncationFacts.clock "0.k3j9x2mq" fresh_state).
Proof.
  pose proof (created_entries_reload (Some " Week 3 ") TruncationFacts.clock
                WorkspaceFacts.zero_clock "0.k3j9x2mq" fresh_state ∅ eq_refl eq_refl) as H.
  cbv zeta in H.
  change (unusable_name (Some " Week 3 ")) with false in H.
  exact (proj1 (proj2 (proj2 H))).
Defined.

End WorkspaceOps.

Module UploadFacts.

Import Storage StorageEntries App.

Lemma created_reading_complete (now : nat -> Z) (random36 fileName text : string) :
  ReadingFacts.complete_reading (createReadingDocument now random36 fileName text)
  = negb (StorageFacts.is_empty fileName) && negb (StorageFacts.all_space text).
Proof.
  unfold ReadingFacts.complete_reading.
  cbn [createReadingDocument id title content].
  pose proof (StorageFacts.normalized_empty text) as Hcontent.
  unfold StorageFacts.is_empty in *. rewrite Hcontent.
  now rewrite WorkspaceOps.append_not_empty.
Qed.

Lemma reading_file_is_reading (reading : ReadingDocument) (parent : option string) :
  is_reading_file (file_value (createReadingWorkspaceFile reading parent)) = true.
Proof. reflexivity. Qed.

Lemma reading_file_readingId (reading : ReadingDocument) (parent : option string) :
  opt_get (file_value (createReadingWorkspaceFile reading parent)) "readingId"
  = VStr (id reading).
Proof. reflexivity. Qed.

Lemma has_reading_file_grows (ws : WorkspaceState) (more : list JsValue)
    (reading : ReadingDocument) :
  has_reading_file ws reading = true ->
  has_reading_file {| folders := folders ws; files := (files ws ++ more)%list |} reading = true.
Proof.
  unfold has_reading_file. cbn [files]. rewrite List.filter_app, existsb_app.
  intros ->. reflexivity.
Qed.

Lemma has_own_reading_file (ws : WorkspaceState) (before after : list JsValue)
    (reading : ReadingDocument) (parent : option string) :
  has_reading_file
    {| folders := folders ws;
       files := (before ++ file_value (createReadingWorkspaceFile reading parent) :: after)%list |}
    reading = true.
Proof.
  unfold has_reading_file. cbn [files]. rewrite List.filter_app, existsb_app.
  apply orb_true_iff. right. cbn [List.filter].
  rewrite reading_file_is_reading. cbn [existsb].
  now rewrite reading_file_readingId, String.eqb_refl.
Qed.

(** The text kept for an upload is blank only for a text file that is
    blank. *)
Definition accepted (file : UploadedFile) : bool :=
  isPdfFile file || negb (StorageFacts.all_space (upload_text file)).

(** X24: an upload the handler accepts (a PDF, or a file whose text is
    not blank) with a non-empty file name, into a well-formed workspace,
    appends one reading whose id, title and content are all non-empty,
    so the stored readings load back in full when the earlier ones did;
    it appends the reading's file to the workspace, makes it the active
    file, and what it stored as workspace loads back exactly.  A text
    file that is blank raises the alert and changes nothing. *)
Theorem upload_is_stored_loadable (file : UploadedFile) (now later : nat -> Z)
    (random36 objectUrl : string) (st : AppState) (localStorage : LocalStorage) :
  WorkspaceOps.well_formed (workspace st) = true ->
  window st = Some localStorage ->
  StorageFacts.is_empty (upload_name file) = false ->
  let '(st', alerted) := handleReadingUpload (Some file) now random36 objectUrl st in
  if accepted file
  then alerted = false
       /\ exists reading : ReadingDocument,
            readings st' = (readings st ++ [reading])%list
            /\ title reading = upload_name file
            /\ ReadingFacts.complete_reading reading = true
            /\ loadReadings (window st')
               = map reading_value (List.filter ReadingFacts.complete_reading (readings st'))
            /\ files (workspace st')
               = (files (workspace st)
                  ++ [file_value (createReadingWorkspaceFile reading
                                    (Some DEFAULT_READINGS_FOLDER_ID))])%list
            /\ activeFileId st' = Some ("reading-" ++ id reading)
            /\ has_reading_file (workspace st') reading = true
            /\ loadWorkspaceState (window st') later = workspace st'
  else alerted = true /\ st' = st.
Proof.
  intros Hwf Hwindow Hname.
  unfold handleReadingUpload, accepted.
  set (content := if isPdfFile file then "PDF uploaded: " ++ upload_name file
                  else upload_text file).
  rewrite HookFacts.truthy_trim, negb_involutive.
  assert (isPdfFile file || negb (StorageFacts.all_space (upload_text file))
          = negb (negb (isPdfFile file) && StorageFacts.all_space content)) as Haccept.
  { subst content. destruct (isPdfFile file); [now rewrite andb_false_l | reflexivity]. }
  rewrite Haccept.
  destruct (negb (isPdfFile file) && StorageFacts.all_space content) eqn:Hreject; cbn [negb];
    [now split |].
  assert (StorageFacts.all_space content = false) as Hcontent.
  { subst content. destruct (isPdfFile file); [reflexivity |]. exact Hreject. }
  split; [reflexivity |].
  set (reading := createReadingDocument now random36 (upload_name file) content).
  assert (ReadingFacts.complete_reading reading = true) as Hcomplete
    by (subst reading; now rewrite created_reading_complete, Hname, Hcontent).
  exists reading. cbn [readings workspace window activeFileId].
  assert (WorkspaceOps.well_formed
            (add_file (createReadingWorkspaceFile reading (Some DEFAULT_READINGS_FOLDER_ID))
                      (workspace st)) = true) as Hnext.
  { unfold add_file. rewrite <- (app_nil_r (folders (workspace st))).
    apply WorkspaceOps.well_formed_grows; [exact Hwf | reflexivity |].
    cbn [forallb]. rewrite WorkspaceOps.reading_file_valid.
    subst reading. cbn [createReadingDocument title]. now rewrite Hname. }
  rewrite Hwindow.
  split; [reflexivity |]. split; [reflexivity |]. split; [exact Hcomplete |].
  split.
  { unfold saveWorkspaceState, saveReadings, loadReadings.
    rewrite lookup_insert_ne by done. rewrite lookup_insert_eq.
    apply ReadingFacts.filter_reading_values. }
  split; [reflexivity |]. split; [reflexivity |].
  split.
  { unfold add_file. apply (has_own_reading_file (workspace st) (files (workspace st)) []). }
  unfold saveReadings. now apply WorkspaceOps.well_formed_reloads.
Qed.

Definition notes_file : UploadedFile :=
  {| upload_name := "notes.txt"; upload_type := "text/plain";
     upload_text := "Deliberation needs slack." |}.

Lemma upload_is_stored_loadable_witness :
  let st' := fst (handleReadingUpload (Some notes_file) TruncationFacts.clock "0.k3j9x2mq"
                    "blob:1" WorkspaceOps.fresh_state) in
  loadWorkspaceState (window st') WorkspaceFacts.zero_clock = workspace st'
  /\ activeFileId st' = Some "reading-1700000000000-k3j9x2".
Proof.
  pose proof (upload_is_stored_loadable notes_file TruncationFacts.clock
                WorkspaceFacts.zero_clock "0.k3j9x2mq" "blob:1" WorkspaceOps.fresh_state ∅
                eq_refl eq_refl eq_refl) as H.
  destruct (handleReadingUpload (Some notes_file) TruncationFacts.clock "0.k3j9x2mq" "blob:1"
              WorkspaceOps.fresh_state) as [st' alerted] eqn:Hrun.
  change (accepted notes_file) with true in H.
  destruct H as (_ & reading & _ & _ & _ & _ & _ & Hactive & _ & Hload).
  cbn [fst]. split; [exact Hload |].
  apply (f_equal fst) in Hrun. cbn [fst] in Hrun. subst st'. reflexivity.
Defined.

Lemma filter_none_missing {A : Type} (p : A -> bool) (l : list A) :
  forallb p l = true -> List.filter (fun a => negb (p a)) l = [].
Proof.
  induction l as [| a rest IH]; [reflexivity |].
  cbn. intros [Ha Hrest]%andb_true_iff. rewrite Ha. cbn. now apply IH.
Qed.

(** X25: the mount effect gives every loaded reading a file in the
    workspace: afterwards each reading has a reading file whose
    [readingId] is its id; the files that were there stay first, in
    order; and the effect is idempotent: run again on its own result it
    adds nothing and stores nothing. *)
Theorem attach_reading_files_covers (initialReadings : list ReadingDocument)
    (initialWorkspace : WorkspaceState) (window : Window) :
  let '(next, stored) := attach_reading_files initialReadings initialWorkspace window in
  forallb (has_reading_file next) initialReadings = true
  /\ folders next = folders initialWorkspace
  /\ (exists added : list JsValue,
        files next = (files initialWorkspace ++ added)%list
        /\ (List.length added <= List.length initialReadings)%nat
        /\ (added = [] -> stored = window))
  /\ attach_reading_files initialReadings next stored = (next, stored).
Proof.
  unfold attach_reading_files.
  set (missing := List.filter (fun reading => negb (has_reading_file initialWorkspace reading))
                              initialReadings).
  set (make := fun reading =>
                 file_value (createReadingWorkspaceFile reading (Some DEFAULT_READINGS_FOLDER_ID))).
  set (next := {| folders := folders initialWorkspace;
                  files := (files initialWorkspace ++ map make missing)%list |}).
  assert (forallb (has_reading_file next) initialReadings = true) as Hcovered.
  { apply forallb_forall. intros reading Hin.
    destruct (has_reading_file initialWorkspace reading) eqn:Hhas.
    - now apply has_reading_file_grows.
    - assert (In reading missing) as Hmissing
        by (apply filter_In; split; [exact Hin | now rewrite Hhas]).
      apply in_split in Hmissing as (l1 & l2 & Hsplit).
      subst next. rewrite Hsplit, map_app. cbn [map]. rewrite app_assoc.
      apply has_own_reading_file. }
  assert (List.filter (fun reading => negb (has_reading_file next reading)) initialReadings = [])
    as Hnone.
  { now apply filter_none_missing. }
  assert (List.length (map make missing) <= List.length initialReadings)%nat as Hlen
    by (rewrite length_map; apply List.filter_length_le).
  destruct (map make missing) as [| file more] eqn:Hadded.
  - assert (next = initialWorkspace) as Hsame
      by (subst next; rewrite app_nil_r; now destruct initialWorkspace).
    rewrite Hsame in Hcovered, Hnone.
    split; [exact Hcovered |]. split; [reflexivity |].
    split; [exists []; now rewrite app_nil_r |].
    now rewrite Hnone.
  - split; [exact Hcovered |]. split; [reflexivity |].
    split; [exists (file :: more); repeat split; [exact Hlen | discriminate] |].
    cbn [files folders]. fold next. now rewrite Hnone.
Qed.

End UploadFacts.

(* ===================================================================== *)
(** * App shell, continued: the editor side effects *)
(* ===================================================================== *)

Module SideEffects.

Import ShapeMeta StorageEntries.

(** The [source] argument the editor passes to a side-effect handler. *)
Inductive ChangeSource : Type := user | remote.

(** The argument of [editor.updateShape]; [patch_props] is absent when
    the handler sets no props. *)
Record ShapePatch := {
  patch_id : string;
  patch_type : string;
  patch_meta : JsObject;
  patch_props : option JsObject
}.

(** What a handler does: the [updateShape] calls it issues and whether it
    calls [markSaved]. *)
Record Effect := {
  updates : list ShapePatch;
  markSaved : bool
}.

Definition nothing : Effect := {| updates := []; markSaved := false |}.

(** [{ ...sanitizeShapeMeta(shape.meta), ...createHumanMeta(profile.name) }] *)
Definition human_meta (profile : DeliberatoriumProfile) (now : Z) (shape : TLShape) : JsObject :=
  spread (own_fields (sanitizeShapeMeta (shape_meta shape))) (createHumanMeta (name profile) now).

(** The after-create handler; [agentActing] is what [isAgentActing()]
    returns.  A shape of the editor carries an object as [meta] and as
    [props]. *)
Definition afterCreate (profile : DeliberatoriumProfile) (now : Z) (agentActing : bool)
    (shape : TLShape) (source : ChangeSource) : Effect :=
  match source with
  | remote => nothing
  | user =>
      if agentActing then nothing
      else
        {| updates :=
             [ {| patch_id := shape_id shape;
                  patch_type := shape_type shape;
                  patch_meta := human_meta profile now shape;
                  patch_props :=
                    if obj_has "color" (shape_props shape)
                    then Some (obj_set "color" (VStr (color_text (color profile)))
                                       (shape_props shape))
                    else None |} ];
           markSaved := true |}
  end.

(** The after-change handler, on the shape after the change. *)
Definition afterChange (profile : DeliberatoriumProfile) (now : Z) (agentActing : bool)
    (next : TLShape) (source : ChangeSource) : Effect :=
  match source with
  | remote => nothing
  | user =>
      {| updates :=
           if negb agentActing
              && (negb (truthy (shape_meta next))
                  || negb (obj_has "source" (own_fields (shape_meta next))))
           then [ {| patch_id := shape_id next;
                     patch_type := shape_type next;
                     patch_meta := human_meta profile now next;
                     patch_props := None |} ]
           else [];
         markSaved := true |}
  end.

Definition afterDelete (agentActing : bool) (source : ChangeSource) : Effect :=
  match source with
  | remote => nothing
  | user => if agentActing then nothing else {| updates := []; markSaved := true |}
  end.

End SideEffects.

Module SideEffectFacts.

Import ShapeMeta StorageEntries SideEffects ObjectFacts.

(** X26: authorship is sticky.  A user's change to a shape whose
    metadata already names a source, the agent's or a person's, issues no
    update, and neither does any change made while the agent is acting;
    in particular a shape styled by [applyAiStyle] stays the agent's
    however it is edited.  Only a shape without a source is stamped, with
    one update that names the current person and keeps the other
    sanitized metadata. *)
Theorem edits_keep_authorship (profile : DeliberatoriumProfile) (now earlier : Z)
    (agentActing : bool) (next : TLShape) (meta : JsObject) (key : string) :
  shape_meta next = VObj meta ->
  let effect := afterChange profile now agentActing next user in
  markSaved effect = true
  /\ (if agentActing || obj_has "source" meta
      then updates effect = []
      else exists patch : ShapePatch,
             updates effect = [patch]
             /\ patch_id patch = shape_id next /\ patch_props patch = None
             /\ obj_get "source" (patch_meta patch) = Some (VStr "human")
             /\ obj_get "author" (patch_meta patch) = Some (VStr (name profile))
             /\ (key <> "source" -> key <> "author" -> key <> "timestamp" ->
                 obj_get key (patch_meta patch)
                 = obj_get key (own_fields (sanitizeShapeMeta (VObj meta)))))
  /\ updates (afterChange profile now agentActing (applyAiStyle earlier next) user) = []
  /\ afterChange profile now agentActing next remote = nothing.
Proof.
  intros Hmeta effect. subst effect. unfold afterChange. rewrite Hmeta.
  cbn [markSaved updates own_fields truthy negb orb].
  split; [reflexivity |]. split.
  - destruct agentActing; cbn [negb andb orb]; [reflexivity |].
    destruct (obj_has "source" meta); cbn [negb]; [reflexivity |].
    eexists. split; [reflexivity |]. cbn [patch_id patch_props patch_meta].
    split; [reflexivity |]. split; [reflexivity |].
    unfold human_meta. rewrite Hmeta.
    destruct (StyleFacts.sanitizeShapeMeta_object (VObj meta)) as (old & Hold & _).
    rewrite Hold. cbn [own_fields].
    destruct (StyleFacts.stamped_meta old "human" (name profile) now key) as (Hs & Ha & _ & Hk & _).
    unfold createHumanMeta. now repeat split.
  - split; [| reflexivity].
    destruct agentActing; cbn [negb andb]; [reflexivity |].
    cbn [applyAiStyle shape_meta own_fields truthy negb orb].
    destruct (StyleFacts.sanitizeShapeMeta_object (shape_meta next)) as (old & Hold & _).
    rewrite Hold. cbn [own_fields truthy negb orb].
    destruct (StyleFacts.stamped_meta old "ai" "Deliberatorium Agent" earlier key) as (Hs & _).
    unfold createAiMeta, obj_has. now rewrite Hs.
Qed.

Definition ada : DeliberatoriumProfile := {| name := "Ada"; color := blue |}.

Lemma edits_keep_authorship_witness :
  updates (afterChange ada 1700000000500 false
             (applyAiStyle 1700000000000 (EdgeFacts.box_shape "shape:a")) user) = [].
Proof.
  exact (proj1 (proj2 (proj2
           (edits_keep_authorship ada 1700000000500 1700000000000 false
              (EdgeFacts.box_shape "shape:a") [] "kind" eq_refl)))).
Defined.

(** X27: the update sent when a person creates a shape agrees with
    [applyHumanStyle]: it carries the metadata that function computes and,
    for a shape that has a color, the props it computes, and no props
    otherwise; while the agent is acting, or for a change that does not
    come from the user, nothing is sent and nothing is marked saved. *)
Theorem created_shape_patch (profile : DeliberatoriumProfile) (now : Z)
    (agentActing : bool) (shape : TLShape) (source : ChangeSource) :
  let styled := applyHumanStyle now shape (color_text (color profile)) (name profile) in
  match source, agentActing with
  | user, false =>
      exists patch : ShapePatch,
        afterCreate profile now agentActing shape source
        = {| updates := [patch]; markSaved := true |}
        /\ patch_id patch = shape_id shape /\ patch_type patch = shape_type shape
        /\ VObj (patch_meta patch) = shape_meta styled
        /\ patch_props patch
           = (if obj_has "color" (shape_props shape) then Some (shape_props styled) else None)
  | _, _ => afterCreate profile now agentActing shape source = nothing
  end.
Proof.
  cbv zeta. destruct source, agentActing; try reflexivity.
  unfold afterCreate. eexists. split; [reflexivity |].
  cbn [patch_id patch_type patch_meta patch_props applyHumanStyle shape_meta shape_props].
  repeat split. now destruct (obj_has "color" (shape_props shape)).
Qed.

End SideEffectFacts.

(* ===================================================================== *)
(** * App shell, continued: reading recommendations *)
(* ===================================================================== *)

Module Recommendations.

Import Js Storage.

(** [toLowerCase] on one code unit below 256: the letters A to Z and the
    Latin-1 capitals (192 to 222, without the multiplication sign 215)
    move up by 32. *)
Definition toLowerCase_unit (c : ascii) : ascii :=
  let n := N_of_ascii c in
  if ((65 <=? n) && (n <=? 90) || (192 <=? n) && (n <=? 222) && negb (n =? 215))%N
  then ascii_of_N (n + 32) else c.

Fixpoint toLowerCase (s : string) : string :=
  match s with
  | EmptyString => EmptyString
  | String c rest => String (toLowerCase_unit c) (toLowerCase rest)
  end.

(** The class [\w]: letters, digits and the underscore. *)
Definition is_word (c : ascii) : bool :=
  let n := N_of_ascii c in
  ((48 <=? n) && (n <=? 57) || (65 <=? n) && (n <=? 90)
   || (97 <=? n) && (n <=? 122) || (n =? 95))%N.

Definition cons_unit (c : ascii) (pieces : list string) : list string :=
  match pieces with
  | [] => [String c EmptyString]
  | piece :: rest => String c piece :: rest
  end.

(** [s.split(/\W+/)]: the pieces between the maximal runs of characters
    outside [\w]; a run at either end leaves an empty piece there, and the
    empty string gives one empty piece.  [in_run] tells that the
    character before was part of a run. *)
Fixpoint split_from (in_run : bool) (s : string) : list string :=
  match s with
  | EmptyString => [EmptyString]
  | String c rest =>
      if is_word c then cons_unit c (split_from false rest)
      else if in_run then split_from true rest
      else EmptyString :: split_from true rest
  end.

Definition split_nonword (s : string) : list string := split_from false s.

(** [hay.includes(needle)] *)
Fixpoint includes (needle hay : string) : bool :=
  String.prefix needle hay
  || match hay with
     | EmptyString => false
     | String _ rest => includes needle rest
     end.

Definition queryWords (liveTranscript : string) : list string :=
  List.filter (fun word => 3 <? String.length word)%nat
              (split_nonword (toLowerCase liveTranscript)).

(** The [reduce] over the query words. *)
Definition score_of (words : list string) (doc : ReadingDocument) : nat :=
  fold_left (fun total word =>
               (total + (if includes word (toLowerCase (content doc)) then 1 else 0))%nat)
            words 0%nat.

Record Scored := {
  reading : ReadingDocument;
  score : nat
}.

(** [sort((a, b) => b.score - a.score)]: the stable sort by falling
    score, here by insertion from the right. *)
Fixpoint insert_by_score (entry : Scored) (sorted : list Scored) : list Scored :=
  match sorted with
  | [] => [entry]
  | head :: rest =>
      if (score entry <? score head)%nat then head :: insert_by_score entry rest
      else entry :: sorted
  end.

Definition sort_by_score (entries : list Scored) : list Scored :=
  fold_right insert_by_score [] entries.

Inductive Tag : Type := supports | contradicts | extends.

Definition tag_at (index : nat) : Tag :=
  match (index mod 3)%nat with
  | O => supports
  | S O => contradicts
  | _ => extends
  end.

Record Recommendation := {
  rec_reading : ReadingDocument;
  rec_score : nat;
  tag : Tag;
  excerpt : string
}.

Fixpoint tagged (index : nat) (entries : list Scored) : list Recommendation :=
  match entries with
  | [] => []
  | entry :: rest =>
      {| rec_reading := reading entry;
         rec_score := score entry;
         tag := tag_at index;
         excerpt := slice0 220 (content (reading entry)) |}
      :: tagged (S index) rest
  end.

Definition recommendations (liveTranscript : string) (readings : list ReadingDocument)
    : list Recommendation :=
  let words := queryWords liveTranscript in
  match words with
  | [] => []
  | _ :: _ =>
      tagged 0
        (firstn 3
           (sort_by_score
              (List.filter (fun entry => (0 <? score entry)%nat)
                 (map (fun doc => {| reading := doc; score := score_of words doc |})
                      readings))))
  end.

End Recommendations.

From Stdlib Require Import Sorted.

Module RecommendationFacts.

Import Js Storage Recommendations.

Definition by_falling_score (a b : Scored) : Prop := (score b <= score a)%nat.

Lemma insert_by_score_In (entry x : Scored) (sorted : list Scored) :
  In x (insert_by_score entry sorted) <-> x = entry \/ In x sorted.
Proof.
  induction sorted as [| head rest IH]; cbn [insert_by_score].
  - cbn. intuition.
  - destruct (score entry <? score head)%nat; cbn [In]; [rewrite IH |]; intuition.
Qed.

Lemma sort_by_score_In (x : Scored) (entries : list Scored) :
  In x (sort_by_score entries) <-> In x entries.
Proof.
  induction entries as [| entry rest IH]; cbn [sort_by_score fold_right]; [reflexivity |].
  fold (sort_by_score rest). rewrite insert_by_score_In, IH. cbn [In]. intuition.
Qed.

Lemma insert_by_score_sorted (entry : Scored) (sorted : list Scored) :
  StronglySorted by_falling_score sorted ->
  StronglySorted by_falling_score (insert_by_score entry sorted).
Proof.
  induction 1 as [| head rest Hsorted IH Hhead]; cbn [insert_by_score].
  - constructor; [constructor | constructor].
  - destruct (Nat.ltb_spec (score entry) (score head)) as [Hlt | Hge].
    + constructor; [exact IH |].
      apply List.Forall_forall. intros x Hx. apply insert_by_score_In in Hx.
      destruct Hx as [-> | Hx]; [unfold by_falling_score; lia |].
      now apply (proj1 (List.Forall_forall _ _) Hhead).
    + constructor; [now constructor |].
      constructor; [exact Hge |].
      apply List.Forall_forall. intros x Hx.
      pose proof (proj1 (List.Forall_forall _ _) Hhead x Hx) as Hle.
      unfold by_falling_score in *. lia.
Qed.

Lemma sort_by_score_sorted (entries : list Scored) :
  StronglySorted by_falling_score (sort_by_score entries).
Proof.
  induction entries as [| entry rest IH]; cbn [sort_by_score fold_right]; [constructor |].
  now apply insert_by_score_sorted.
Qed.

Lemma sorted_app_ordered (front back : list Scored) :
  StronglySorted by_falling_score (front ++ back)%list ->
  StronglySorted by_falling_score front
  /\ forall a b, In a front -> In b back -> (score b <= score a)%nat.
Proof.
  induction front as [| head rest IH]; cbn [app]; intros Hsorted.
  - split; [constructor | intros a b []].
  - inversion Hsorted as [| ? ? Hrest Hhead]; subst.
    destruct (IH Hrest) as [Hfront Hacross]. split.
    + constructor; [exact Hfront |].
      apply List.Forall_forall. intros x Hx.
      apply (proj1 (List.Forall_forall _ _) Hhead). apply in_or_app. now left.
    + intros a b [<- | Ha] Hb; [| now apply Hacross].
      apply (proj1 (List.Forall_forall _ _) Hhead). apply in_or_app. now right.
Qed.

Lemma tagged_In (r : Recommendation) (index : nat) (entries : list Scored) :
  In r (tagged index entries) ->
  exists entry, In entry entries
    /\ rec_reading r = reading entry /\ rec_score r = score entry
    /\ excerpt r = slice0 220 (content (reading entry)).
Proof.
  revert index. induction entries as [| entry rest IH]; intros index; cbn [tagged In]; [tauto |].
  intros [<- | Hin].
  - exists entry. cbn. auto.
  - destruct (IH _ Hin) as (e & He & Hrest). exists e. auto.
Qed.

Lemma tagged_readings (index : nat) (entries : list Scored) :
  map rec_reading (tagged index entries) = map reading entries
  /\ map rec_score (tagged index entries) = map score entries
  /\ length (tagged index entries) = length entries.
Proof.
  revert index. induction entries as [| entry rest IH]; intros index; cbn; [auto |].
  destruct (IH (S index)) as (-> & -> & ->). auto.
Qed.

Lemma sorted_scores (entries : list Scored) :
  StronglySorted by_falling_score entries -> StronglySorted ge (map score entries).
Proof.
  induction 1 as [| head rest Hsorted IH Hhead]; cbn [map]; constructor; [exact IH |].
  apply List.Forall_forall. intros n Hn. apply in_map_iff in Hn.
  destruct Hn as (x & <- & Hx). exact (proj1 (List.Forall_forall _ _) Hhead x Hx).
Qed.

(** The score counts the query words that occur. *)
Lemma score_of_counts (words : list string) (doc : ReadingDocument) :
  score_of words doc
  = length (List.filter (fun word => includes word (toLowerCase (content doc))) words).
Proof.
  unfold score_of.
  enough (Hgen : forall start,
             fold_left (fun total word =>
                          (total + (if includes word (toLowerCase (content doc))
                                    then 1 else 0))%nat) words start
             = (start + length (List.filter
                                  (fun word => includes word (toLowerCase (content doc)))
                                  words))%nat)
    by (now rewrite Hgen).
  induction words as [| word rest IH]; intros start; cbn [fold_left List.filter length].
  - lia.
  - rewrite IH. destruct (includes word _); cbn [length]; lia.
Qed.

(** X28: the recommendations are the best matches.  There are at most
    three, tagged supports, contradicts, extends in this order, with
    scores that never rise; each is one of the readings, with its own
    positive score and the first 220 characters of its content as
    excerpt; and a reading with a positive score is left out only when
    three are shown that all score at least as high. *)
Theorem recommendations_best_matches (liveTranscript : string)
    (readings : list ReadingDocument) :
  let words := queryWords liveTranscript in
  let recs := recommendations liveTranscript readings in
  (length recs <= 3)%nat
  /\ map tag recs = firstn (length recs) [supports; contradicts; extends]
  /\ StronglySorted ge (map rec_score recs)
  /\ (forall r, In r recs ->
        In (rec_reading r) readings
        /\ rec_score r = score_of words (rec_reading r)
        /\ (1 <= rec_score r)%nat
        /\ excerpt r = slice0 220 (content (rec_reading r)))
  /\ (forall doc, In doc readings -> (1 <= score_of words doc)%nat ->
        In doc (map rec_reading recs)
        \/ (length recs = 3%nat
            /\ forall r, In r recs -> (score_of words doc <= rec_score r)%nat)).
Proof.
  intros words recs. subst recs. unfold recommendations. fold words.
  destruct words as [| word others] eqn:Hwords.
  { cbn. repeat split; try lia; try constructor; try tauto. }
  rewrite <- Hwords. clear Hwords word others.
  set (entries := List.filter _ _).
  pose proof (sort_by_score_sorted entries) as Hsorted.
  pose proof (fun x => sort_by_score_In x entries) as Hperm.
  set (sorted := sort_by_score entries) in *.
  rewrite <- (firstn_skipn 3 sorted) in Hsorted.
  destruct (sorted_app_ordered _ _ Hsorted) as [Hfront Hacross].
  destruct (tagged_readings 0 (firstn 3 sorted)) as (Hreadings & Hscores & Hlength).
  assert (Hentry : forall e, In e entries <->
            In (reading e) readings /\ score e = score_of words (reading e)
            /\ (1 <= score e)%nat).
  { intros e. unfold entries. rewrite filter_In, in_map_iff. split.
    - intros [(doc & <- & Hdoc) Hpos]. apply Nat.ltb_lt in Hpos. cbn [reading score] in *. auto.
    - intros (Hdoc & Hscore & Hpos). split.
      + exists (reading e). split; [| exact Hdoc]. destruct e; cbn in *. now subst.
      + apply Nat.ltb_lt. lia. }
  split; [rewrite Hlength, length_firstn; lia |]. split.
  { clear -Hlength. generalize (firstn_le_length 3 sorted).
    destruct (firstn 3 sorted) as [| a [| b [| c [| d rest]]]]; cbn; intros; try reflexivity.
    lia. }
  split; [rewrite Hscores; now apply sorted_scores |]. split.
  - intros r Hr. destruct (tagged_In _ _ _ Hr) as (e & He & Hdoc & Hscore & Hexcerpt).
    assert (He' : In e sorted)
      by (rewrite <- (firstn_skipn 3 sorted); apply in_or_app; now left).
    apply Hperm, Hentry in He'. destruct He' as (H1 & H2 & H3).
    rewrite Hdoc, Hscore, Hexcerpt. auto.
  - intros doc Hdoc Hpos.
    assert (Hin : In {| reading := doc; score := score_of words doc |} sorted).
    { apply Hperm, Hentry. cbn. auto. }
    rewrite <- (firstn_skipn 3 sorted) in Hin. apply in_app_or in Hin.
    destruct Hin as [Hin | Hin].
    + left. rewrite Hreadings. apply in_map_iff. eexists. split; [| exact Hin]. reflexivity.
    + right. split.
      * rewrite Hlength, length_firstn.
        destruct (Nat.le_gt_cases 3 (length sorted)) as [Hlong | Hshort]; [lia |].
        rewrite skipn_all2 in Hin by lia. destruct Hin.
      * intros r Hr. destruct (tagged_In _ _ _ Hr) as (e & He & _ & -> & _).
        exact (Hacross e _ He Hin).
Qed.

Fixpoint all_word (s : string) : bool :=
  match s with
  | EmptyString => true
  | String c rest => is_word c && all_word rest
  end.

(** [s] occurs in [whole] as a run of consecutive characters. *)
Definition occurs_in (s whole : string) : Prop :=
  exists before after : string, whole = (before ++ s ++ after)%string.

Lemma append_cons (c : ascii) (s after : string) :
  (String c s ++ after)%string = String c (s ++ after)%string.
Proof. reflexivity. Qed.

Lemma append_empty (after : string) : (EmptyString ++ after)%string = after.
Proof. reflexivity. Qed.

Lemma prefix_spec (s whole : string) :
  String.prefix s whole = true <-> exists after, whole = (s ++ after)%string.
Proof.
  revert whole. induction s as [| c s IH]; intros whole.
  - split; [intros _; now exists whole | intros _; now destruct whole].
  - destruct whole as [| d whole]; cbn [String.prefix].
    + split; [discriminate | intros [after Hafter]; discriminate].
    + destruct (Ascii.ascii_dec c d) as [<- | Hdiff].
      * rewrite IH. split; intros [after Hafter]; exists after;
          rewrite append_cons in *; congruence.
      * split; [discriminate |].
        intros [after Hafter]. rewrite append_cons in Hafter. congruence.
Qed.

Lemma includes_spec (needle hay : string) :
  includes needle hay = true <-> occurs_in needle hay.
Proof.
  unfold occurs_in. induction hay as [| c hay IH]; cbn [includes];
    rewrite orb_true_iff, prefix_spec.
  - split.
    + intros [[after Hafter] | Hfalse]; [| discriminate]. now exists EmptyString, after.
    + intros ([| d before] & after & Hhay); [| discriminate]. left. now exists after.
  - rewrite IH. split.
    + intros [[after Hafter] | (before & after & Hhay)].
      * now exists EmptyString, after.
      * exists (String c before), after. now rewrite append_cons, Hhay.
    + intros ([| d before] & after & Hhay).
      * left. now exists after.
      * right. exists before, after. rewrite append_cons in Hhay. congruence.
Qed.

Lemma split_from_word (in_run : bool) (s piece : string) :
  In piece (split_from in_run s) -> all_word piece = true.
Proof.
  revert in_run piece. induction s as [| c rest IH]; intros in_run piece; cbn [split_from].
  - intros [<- | []]. reflexivity.
  - destruct (is_word c) eqn:Hword.
    + specialize (IH false). destruct (split_from false rest) as [| head others]; cbn [cons_unit].
      * intros [<- | []]. cbn [all_word]. now rewrite Hword.
      * intros [<- | Hin].
        -- cbn [all_word]. rewrite Hword. apply IH. now left.
        -- apply IH. now right.
    + destruct in_run; [apply IH |]. intros [<- | Hin]; [reflexivity | now apply (IH true)].
Qed.

Lemma split_from_occurs (s : string) :
  (forall in_run piece, In piece (split_from in_run s) -> occurs_in piece s)
  /\ exists head others after,
       split_from false s = head :: others /\ s = (head ++ after)%string.
Proof.
  unfold occurs_in. induction s as [| c rest [IHsub (head & others & after & Hsplit & Hrest)]];
    cbn [split_from].
  - split.
    + intros _ piece [<- | []]. now exists EmptyString, EmptyString.
    + now exists EmptyString, [], EmptyString.
  - destruct (is_word c).
    + rewrite Hsplit. cbn [cons_unit]. split.
      * intros _ piece [<- | Hin].
        -- exists EmptyString, after. now rewrite append_empty, append_cons, <- Hrest.
        -- destruct (IHsub false piece) as (before & after' & Hwhole).
           { rewrite Hsplit. now right. }
           exists (String c before), after'. now rewrite append_cons, <- Hwhole.
      * exists (String c head), others, after. now rewrite append_cons, <- Hrest.
    + split.
      * intros in_run piece Hin.
        assert (Hcases : piece = EmptyString \/ In piece (split_from true rest)).
        { destruct in_run; [now right |]. destruct Hin as [<- | Hin]; auto. }
        destruct Hcases as [-> | Hin'].
        -- now exists EmptyString, (String c rest).
        -- destruct (IHsub true piece Hin') as (before & after' & Hwhole).
           exists (String c before), after'. now rewrite append_cons, <- Hwhole.
      * now exists EmptyString, (split_from true rest), (String c rest).
Qed.

Lemma filter_length_positive {A : Type} (f : A -> bool) (l : list A) :
  (1 <= length (List.filter f l))%nat <-> exists x, In x l /\ f x = true.
Proof.
  split.
  - destruct (List.filter f l) as [| x rest] eqn:Hfilter; cbn [length]; [lia |].
    intros _. exists x. apply filter_In. rewrite Hfilter. now left.
  - intros (x & Hx). apply filter_In in Hx.
    destruct (List.filter f l); [destruct Hx | cbn; lia].
Qed.

(** X29: what is matched.  Every query word is a run of more than three
    letters, digits or underscores that occurs in the lower-cased
    transcript; the score of a reading is at most the number of query
    words, and it is positive exactly when some query word occurs in the
    reading's lower-cased content. *)
Theorem positive_score_shares_word (liveTranscript : string) (doc : ReadingDocument) :
  let words := queryWords liveTranscript in
  (forall word, In word words ->
     (3 < String.length word)%nat /\ all_word word = true
     /\ occurs_in word (toLowerCase liveTranscript))
  /\ (score_of words doc <= length words)%nat
  /\ ((1 <= score_of words doc)%nat <->
      exists word, In word words /\ occurs_in word (toLowerCase (content doc))).
Proof.
  intros words. split; [| split].
  - intros word Hword. unfold words, queryWords in Hword. apply filter_In in Hword.
    destruct Hword as [Hpiece Hlong]. apply Nat.ltb_lt in Hlong.
    split; [exact Hlong |]. split.
    + exact (split_from_word _ _ _ Hpiece).
    + exact (proj1 (split_from_occurs _) _ _ Hpiece).
  - rewrite score_of_counts. apply List.filter_length_le.
  - rewrite score_of_counts, filter_length_positive.
    split; intros (word & Hword & Hocc); exists word; (split; [exact Hword |]);
      now apply includes_spec.
Qed.

(** Two runs of the code on a transcript and three readings. *)
Definition doc_of (key text : string) : ReadingDocument :=
  {| id := key; title := key; content := text; createdAt := 0 |}.

Example recommendations_samples :
  map (fun r => (id (rec_reading r), rec_score r, tag r))
      (recommendations "Climate policy, and the CARBON tax!"
         [ doc_of "a" "Notes on tax law";
           doc_of "b" "A carbon tax is climate policy";
           doc_of "c" "Policy briefs" ])
  = [ ("b", 3%nat, supports); ("c", 1%nat, contradicts) ]
  /\ queryWords "Climate policy, and the CARBON tax!" = ["climate"; "policy"; "carbon"]
  /\ recommendations "to be or not" [doc_of "a" "to be or not to be"] = [].
Proof. repeat split; vm_compute; reflexivity. Qed.

End RecommendationFacts.
